(** * opencode-skillful: skill registry and resource resolver

    A shallow embedding of the resource resolver
    ([createSkillResourceResolver]) together with models of the registry
    controller, the resource indexer, the manifest banner stripper and the
    search ranker, and the properties the specification states about them.
    The resolver is embedded from its source, over the registry lookup and
    the file read it is given.  The other four components live in
    [services/SkillRegistry.ts] and the searcher, of which the tests and the
    types are at hand: they are modelled from the specification and run on
    the inputs of those tests.

    Conventions.
    - A JavaScript string is a [string]: a sequence of 8-bit characters, read
      as the UTF-8 bytes of the text.  [toLowerCase] folds the ASCII letters
      [A]-[Z]; on text outside ASCII the JavaScript function also folds other
      letters, which this model leaves alone.  The two agree on ASCII text,
      and a property whose truth depends on what the folded comparison of
      keys, paths or type names answers is stated for ASCII text
      ([AsciiText.isAscii]).
    - A JavaScript [Map] is an association list in insertion order; [map_get]
      returns the first binding of a key and [map_set] overwrites a bound key
      in place or appends a new binding, as [Map.prototype.set] does.
    - [undefined] as "no entry" is [None]; a thrown [Error] is the right
      injection of a sum, carrying the message. *)

From Stdlib Require Import String Ascii List Bool Arith Lia Permutation.
Import ListNotations.
Open Scope list_scope.
Open Scope string_scope.

(* ===================================================================== *)
(** ** JavaScript string primitives *)
(* ===================================================================== *)

Module Js.

(** [c] is one of [A]..[Z]. *)
Definition isUpper (c : ascii) : bool :=
  let n := nat_of_ascii c in Nat.leb 65 n && Nat.leb n 90.

(** [c] is one of [a]..[z]. *)
Definition isLower (c : ascii) : bool :=
  let n := nat_of_ascii c in Nat.leb 97 n && Nat.leb n 122.

Definition lowerChar (c : ascii) : ascii :=
  if isUpper c then ascii_of_nat (nat_of_ascii c + 32) else c.

(** [s.toLowerCase()], on ASCII text: the letters [A] to [Z] are folded,
    every other character is kept.  ([String.prototype.toLowerCase] also
    folds the cased letters outside ASCII.) *)
Fixpoint toLowerCase (s : string) : string :=
  match s with
  | EmptyString => EmptyString
  | String c r => String (lowerChar c) (toLowerCase r)
  end.

(** [s.startsWith(p)] *)
Fixpoint startsWith (p s : string) : bool :=
  match p, s with
  | EmptyString, _ => true
  | String _ _, EmptyString => false
  | String a p', String b s' => Ascii.eqb a b && startsWith p' s'
  end.

(** [s.replace(/a/g, b)] for a one-character pattern. *)
Fixpoint replaceAll (a b : ascii) (s : string) : string :=
  match s with
  | EmptyString => EmptyString
  | String c r => String (if Ascii.eqb c a then b else c) (replaceAll a b r)
  end.

(** [s.replace(/^a+/, '')] *)
Fixpoint stripLeading (a : ascii) (s : string) : string :=
  match s with
  | EmptyString => EmptyString
  | String c r => if Ascii.eqb c a then stripLeading a r else s
  end.

(** [s.replace(/a+$/, '')] *)
Fixpoint stripTrailing (a : ascii) (s : string) : string :=
  match s with
  | EmptyString => EmptyString
  | String c r =>
      match stripTrailing a r with
      | EmptyString => if Ascii.eqb c a then EmptyString else String c EmptyString
      | r' => String c r'
      end
  end.

(** [s.split(sep)] for a one-character separator: never the empty list. *)
Fixpoint split (sep : ascii) (s : string) : list string :=
  match s with
  | EmptyString => [EmptyString]
  | String c r =>
      if Ascii.eqb c sep then EmptyString :: split sep r
      else match split sep r with
           | [] => [String c EmptyString]
           | h :: t => String c h :: t
           end
  end.

(** Truthiness of a string: the empty string is the only falsy one. *)
Definition truthy (s : string) : bool := negb (s =? "").

(** [xs.includes(x)] on an array of strings. *)
Fixpoint includes (x : string) (xs : list string) : bool :=
  match xs with
  | [] => false
  | y :: r => (y =? x) || includes x r
  end.

(** [s.includes(sub)]: [sub] occurs somewhere in [s]. *)
Fixpoint contains (sub s : string) : bool :=
  startsWith sub s ||
  match s with
  | EmptyString => false
  | String _ r => contains sub r
  end.

(** [a || b] on optional values: the first defined one. *)
Definition orElse {A} (a b : option A) : option A :=
  match a with Some _ => a | None => b end.

End Js.

Notation "a <|> b" := (Js.orElse a b) (at level 51, right associativity).

(* ===================================================================== *)
(** ** Data model ([types.ts]) *)
(* ===================================================================== *)

(** [Omit<SkillResource, 'relativePath'>] *)
Record ResourceEntry := mkEntry {
  absolutePath : string;
  mimeType : string
}.

(** [SkillResourceMap = Map<string, {absolutePath, mimeType}>] *)
Definition SkillResourceMap := list (string * ResourceEntry).

Fixpoint map_get {V} (k : string) (m : list (string * V)) : option V :=
  match m with
  | [] => None
  | (k', v) :: r => if k' =? k then Some v else map_get k r
  end.

Fixpoint map_set {V} (k : string) (v : V) (m : list (string * V))
  : list (string * V) :=
  match m with
  | [] => [(k, v)]
  | (k', v') :: r => if k' =? k then (k, v) :: r else (k', v') :: map_set k v r
  end.

Definition map_has {V} (k : string) (m : list (string * V)) : bool :=
  match map_get k m with Some _ => true | None => false end.

(** [type Skill] *)
Record Skill := mkSkill {
  name : string;
  fullPath : string;
  toolName : string;
  description : string;
  allowedTools : option (list string);
  metadata : option (list (string * string));
  license : option string;
  content : string;
  path : string;
  scripts : SkillResourceMap;
  references : SkillResourceMap;
  assets : SkillResourceMap;
  resources : option SkillResourceMap
}.

(* ===================================================================== *)
(** ** Resource resolver ([createSkillResourceResolver]) *)
(* ===================================================================== *)

Module Resolver.
Import Js.

Definition toPosixPath (value : string) : string :=
  replaceAll "\" "/" value.

Definition normalizeResourcePath (value : string) : string :=
  stripTrailing "/" (stripLeading "/" (toPosixPath value)).

(** [/^[A-Za-z]:[\\/]/.test(value)] *)
Definition hasDrivePrefix (value : string) : bool :=
  match value with
  | String c0 (String c1 (String c2 _)) =>
      (isUpper c0 || isLower c0) && Ascii.eqb c1 ":"
      && (Ascii.eqb c2 "\" || Ascii.eqb c2 "/")
  | _ => false
  end.

(** [normalized.split('/').filter(Boolean)] *)
Definition segments (normalized : string) : list string :=
  filter truthy (split "/" normalized).

Definition isUnsafeResourcePath (value : string) : bool :=
  let normalized := normalizeResourcePath value in
  if negb (truthy normalized) then true
  else if startsWith "/" value || hasDrivePrefix value then true
  else includes ".." (segments normalized).

(** The first loop of [findInMap]: exact-case probes, in candidate order. *)
Fixpoint probeExact (m : SkillResourceMap) (candidates : list string)
  : option ResourceEntry :=
  match candidates with
  | [] => None
  | candidate :: rest =>
      let normalized := normalizeResourcePath candidate in
      if negb (truthy normalized) then probeExact m rest
      else match map_get normalized m with
           | Some exact => Some exact
           | None => probeExact m rest
           end
  end.

(** The [lowered] map: every entry re-inserted under its lower-cased key,
    in insertion order, so a later entry overwrites an earlier one whose key
    folds to the same string. *)
Definition loweredMap (m : SkillResourceMap) : SkillResourceMap :=
  fold_left (fun lowered kv => map_set (toLowerCase (fst kv)) (snd kv) lowered)
            m [].

(** The second loop of [findInMap]: probes of the lower-cased candidates. *)
Fixpoint probeLowered (lowered : SkillResourceMap) (candidates : list string)
  : option ResourceEntry :=
  match candidates with
  | [] => None
  | candidate :: rest =>
      let normalized := toLowerCase (normalizeResourcePath candidate) in
      if negb (truthy normalized) then probeLowered lowered rest
      else match map_get normalized lowered with
           | Some m => Some m
           | None => probeLowered lowered rest
           end
  end.

(** [resourceMap?.entries() || []] *)
Definition entriesOf (resourceMap : option SkillResourceMap) : SkillResourceMap :=
  match resourceMap with Some m => m | None => [] end.

Definition findInMap (resourceMap : option SkillResourceMap)
                     (candidates : list string) : option ResourceEntry :=
  match probeExact (entriesOf resourceMap) candidates with
  | Some exact => Some exact
  | None => probeLowered (loweredMap (entriesOf resourceMap)) candidates
  end.

Definition legacyCandidates (prefix relativePath : string) : list string :=
  let normalized := normalizeResourcePath relativePath in
  if negb (truthy normalized) then []
  else if startsWith (toLowerCase prefix ++ "/") (toLowerCase normalized)
       then [normalized]
       else [normalized; prefix ++ "/" ++ normalized].

Definition resolveLegacyResource (skill : Skill) (type relativePath : string)
  : option ResourceEntry :=
  let loweredType := toLowerCase type in
  if (loweredType =? "script") || (loweredType =? "scripts") then
    findInMap (Some (scripts skill)) (legacyCandidates "scripts" relativePath)
  else if (loweredType =? "asset") || (loweredType =? "assets") then
    findInMap (Some (assets skill)) (legacyCandidates "assets" relativePath)
  else if (loweredType =? "reference") || (loweredType =? "references") then
    findInMap (Some (references skill))
              (legacyCandidates "references" relativePath)
  else None.

Definition resolveUnifiedResource (skill : Skill) (type relativePath : string)
  : option ResourceEntry :=
  let normalizedType := normalizeResourcePath type in
  let normalizedRelative := normalizeResourcePath relativePath in
  match resources skill with
  | None => None
  | Some [] => None
  | Some _ =>
      let loweredType := toLowerCase normalizedType in
      if (loweredType =? "workflow") || (loweredType =? "workflows") then
        findInMap (resources skill)
          [normalizedRelative;
           if truthy normalizedRelative
           then "Workflows/" ++ normalizedRelative else "Workflows"]
      else if (loweredType =? "tool") || (loweredType =? "tools") then
        findInMap (resources skill)
          [normalizedRelative;
           if truthy normalizedRelative
           then "Tools/" ++ normalizedRelative else "Tools"]
      else if (loweredType =? "resource") || (loweredType =? "resources")
              || (loweredType =? "") || (loweredType =? "doc")
              || (loweredType =? "docs") then
        let pushWorkflows :=
          if negb (startsWith "workflows/" (toLowerCase normalizedRelative))
          then ["Workflows/" ++ normalizedRelative] else [] in
        let pushTools :=
          if negb (startsWith "tools/" (toLowerCase normalizedRelative))
          then ["Tools/" ++ normalizedRelative] else [] in
        findInMap (resources skill)
                  (normalizedRelative :: app pushWorkflows pushTools)
      else
        let typedPath :=
          if truthy normalizedRelative
          then normalizedType ++ "/" ++ normalizedRelative
          else normalizedType in
        findInMap (resources skill) [typedPath; normalizedRelative]
  end.

(** The argument object of a resolver call. *)
Record Args := mkArgs {
  skill_name : string;
  type : string;
  relative_path : string
}.

(** The value a successful call resolves to. *)
Record Resolved := mkResolved {
  absolute_path : string;
  resolved_content : string;
  resolved_mimeType : string
}.

(** A thrown [new Error(message)]. *)
Inductive JsError := Error (message : string).

Definition errorMessage (e : JsError) : string :=
  match e with Error m => m end.

(** The outcome of a call: the resolved value or the thrown error, and the
    paths handed to [readSkillFile], in call order. *)
Record Outcome := mkOutcome {
  result : Resolved + JsError;
  reads : list string
}.

Definition rawTypeOf (args : Args) : string :=
  if truthy (type args) then type args else "resource".

Definition lookupPathOf (args : Args) : string :=
  if truthy (relative_path args) then relative_path args else rawTypeOf args.

(** The one-character string holding a double quote. *)
Definition dquote : string := String (ascii_of_nat 34) EmptyString.

Definition notFoundMessage (args : Args) : string :=
  "Resource not found: Skill " ++ dquote ++ skill_name args ++ dquote
  ++ " does not have a " ++ rawTypeOf args
  ++ " at path " ++ dquote ++ relative_path args ++ dquote.

Section WithProvider.

(** [provider.controller.get]: the registry the resolver is created over. *)
Variable controller_get : string -> option Skill.

(** [readSkillFile] of [lib/SkillFs]: the content of the file, or the message
    of the error the read throws. *)
Variable readSkillFile : string -> string + string.

(** The prefix-inferred retry and its three untyped retries (taken when the
    type is generic and a relative path was supplied). *)
Definition retryByPrefix (skill : Skill) (rawRelativePath : string)
  : option ResourceEntry :=
  let normalizedRelative := normalizeResourcePath rawRelativePath in
  let loweredRelative := toLowerCase normalizedRelative in
  (if startsWith "references/" loweredRelative then
     resolveLegacyResource skill "reference" normalizedRelative
   else if startsWith "scripts/" loweredRelative then
     resolveLegacyResource skill "script" normalizedRelative
   else if startsWith "assets/" loweredRelative then
     resolveLegacyResource skill "asset" normalizedRelative
   else None)
  <|> resolveLegacyResource skill "reference" normalizedRelative
  <|> resolveLegacyResource skill "script" normalizedRelative
  <|> resolveLegacyResource skill "asset" normalizedRelative.

(** The lookup sequence between the security gate and the read. *)
Definition lookupEntry (skill : Skill) (rawType rawRelativePath : string)
  : option ResourceEntry :=
  let e1 := resolveLegacyResource skill rawType rawRelativePath in
  let e2 := e1 <|> resolveUnifiedResource skill rawType rawRelativePath in
  let loweredRawType := toLowerCase rawType in
  let e3 :=
    match e2 with
    | Some _ => e2
    | None =>
        if includes loweredRawType ["resource"; "resources"; "doc"; "docs"]
           && truthy rawRelativePath
        then retryByPrefix skill rawRelativePath
        else None
    end in
  match e3 with
  | Some _ => e3
  | None =>
      if rawRelativePath =? "" then
        resolveUnifiedResource skill "resource" rawType
        <|> resolveLegacyResource skill "reference" rawType
        <|> resolveLegacyResource skill "script" rawType
        <|> resolveLegacyResource skill "asset" rawType
      else None
  end.

(** The closing [try]/[catch]: the one read of a call, and what it turns
    the file or the failure into. *)
Definition readEntry (resourceEntry : ResourceEntry) : Outcome :=
  match readSkillFile (absolutePath resourceEntry) with
  | inl content =>
      mkOutcome
        (inl (mkResolved (absolutePath resourceEntry) content
                         (mimeType resourceEntry)))
        [absolutePath resourceEntry]
  | inr cause =>
      mkOutcome
        (inr (Error ("Failed to read resource at "
                     ++ absolutePath resourceEntry ++ ": " ++ cause)))
        [absolutePath resourceEntry]
  end.

(** The function [createSkillResourceResolver] returns. *)
Definition resolver (args : Args) : Outcome :=
  match controller_get (skill_name args) with
  | None => mkOutcome (inr (Error ("Skill not found: " ++ skill_name args))) []
  | Some skill =>
      let rawType := rawTypeOf args in
      let rawRelativePath := relative_path args in
      let lookupPath := lookupPathOf args in
      if isUnsafeResourcePath lookupPath then
        mkOutcome (inr (Error (notFoundMessage args))) []
      else
        match lookupEntry skill rawType rawRelativePath with
        | None => mkOutcome (inr (Error (notFoundMessage args))) []
        | Some resourceEntry => readEntry resourceEntry
        end
  end.

End WithProvider.

(** A thrown error is the resolver's "resource not found" error. *)
Definition isResourceNotFound (e : JsError) : bool :=
  startsWith "Resource not found: " (errorMessage e).

(** The four ways a call can go. *)
Inductive Case (controller_get : string -> option Skill)
               (readSkillFile : string -> string + string) (args : Args)
  : Outcome -> Prop :=
| case_no_skill :
    controller_get (skill_name args) = None ->
    Case controller_get readSkillFile args
         (mkOutcome (inr (Error ("Skill not found: " ++ skill_name args))) [])
| case_unsafe skill :
    controller_get (skill_name args) = Some skill ->
    isUnsafeResourcePath (lookupPathOf args) = true ->
    Case controller_get readSkillFile args
         (mkOutcome (inr (Error (notFoundMessage args))) [])
| case_miss skill :
    controller_get (skill_name args) = Some skill ->
    isUnsafeResourcePath (lookupPathOf args) = false ->
    lookupEntry skill (rawTypeOf args) (relative_path args) = None ->
    Case controller_get readSkillFile args
         (mkOutcome (inr (Error (notFoundMessage args))) [])
| case_hit skill e :
    controller_get (skill_name args) = Some skill ->
    isUnsafeResourcePath (lookupPathOf args) = false ->
    lookupEntry skill (rawTypeOf args) (relative_path args) = Some e ->
    Case controller_get readSkillFile args (readEntry readSkillFile e).

(** The entries of [m] under their lower-cased keys, latest first. *)
Definition foldedEntries (m : SkillResourceMap) : SkillResourceMap :=
  rev (map (fun kv => (toLowerCase (fst kv), snd kv)) m).

(** [e] is an entry of one of the four pre-indexed maps of [skill]. *)
Definition Indexed (skill : Skill) (e : ResourceEntry) : Prop :=
  exists k,
    In (k, e) (scripts skill) \/ In (k, e) (references skill)
    \/ In (k, e) (assets skill) \/ In (k, e) (entriesOf (resources skill)).

(** No exact-case probe of [candidates] hits [m]. *)
Definition ExactMiss (m : SkillResourceMap) (candidates : list string) : Prop :=
  forall c, In c candidates ->
            normalizeResourcePath c = ""
            \/ map_get (normalizeResourcePath c) m = None.



(** The candidate path as the specification words its safety conditions. *)
Definition UnsafeCandidate (candidate : string) : Prop :=
  normalizeResourcePath candidate = ""
  \/ startsWith "/" candidate = true
  \/ hasDrivePrefix candidate = true
  \/ In ".." (split "/" (normalizeResourcePath candidate)).

End Resolver.

(* ===================================================================== *)
(** ** Manifest banner stripping ([stripLeadingHtmlCommentBlocks]) *)
(* ===================================================================== *)

Module Manifest.
Import Js.

(** The UTF-8 byte-order mark, the bytes EF BB BF. *)
Definition BOM : string :=
  String (ascii_of_nat 239) (String (ascii_of_nat 187)
    (String (ascii_of_nat 191) EmptyString)).

(** Space, tab, line feed and carriage return: what a blank line is made of. *)
Definition isBlank (c : ascii) : bool :=
  let n := nat_of_ascii c in
  Nat.eqb n 32 || Nat.eqb n 9 || Nat.eqb n 10 || Nat.eqb n 13.

Fixpoint trimStart (s : string) : string :=
  match s with
  | EmptyString => EmptyString
  | String c r => if isBlank c then trimStart r else s
  end.

Fixpoint drop (n : nat) (s : string) : string :=
  match n, s with
  | O, _ => s
  | S _, EmptyString => EmptyString
  | S n', String _ r => drop n' r
  end.

Definition stripBom (s : string) : string :=
  if startsWith BOM s then drop 3 s else s.

(** The text after the first comment terminator in [s], if there is one. *)
Fixpoint afterClose (s : string) : option string :=
  if startsWith "-->" s then Some (drop 3 s)
  else match s with
       | EmptyString => None
       | String _ r => afterClose r
       end.

(** One round: blank lines, one comment block, and the blank lines after it.
    [None] when the first non-blank content is not a complete comment block. *)
Definition stripOne (s : string) : option string :=
  let t := trimStart s in
  if startsWith "<!--" t then
    match afterClose (drop 4 t) with
    | Some rest => Some (trimStart rest)
    | None => None
    end
  else None.

Fixpoint stripBlocks (fuel : nat) (s : string) : string :=
  match fuel with
  | O => s
  | S fuel' =>
      match stripOne s with
      | Some s' => stripBlocks fuel' s'
      | None => s
      end
  end.

(** Modelled from the spec: [stripLeadingHtmlCommentBlocks] of
    [services/SkillRegistry.ts], of which only the tests are at hand.  Steps
    (1) and (2) of the parser pipeline: a UTF-8 byte-order mark is removed,
    then leading comment blocks, together with the blank lines around them,
    until the first content that is neither blank nor a comment.  A text with
    no comment block at its start is handed back as it is.  Every round
    removes at least the seven characters of an empty comment, so the length
    of the text bounds the number of rounds. *)
Definition stripLeadingHtmlCommentBlocks (content : string) : string :=
  let s := stripBom content in
  stripBlocks (String.length s) s.

Section Parser.

(** The rest of the pipeline (frontmatter parsing, validation, tool-name
    derivation, resource indexing), a black box from text to a skill or the
    message of a parse error. *)
Variable parseManifest : string -> Skill + string.

Definition parseSkill (rawText : string) : Skill + string :=
  parseManifest (stripLeadingHtmlCommentBlocks rawText).

End Parser.

(** Every character of [s] is blank. *)
Definition allBlank (s : string) : bool :=
  match trimStart s with EmptyString => true | _ => false end.

(** A run of comment blocks strictly at the start of a document: each block
    opens with the comment opener, closes at the first terminator, and has
    only blank characters before and after it. *)
Inductive CommentBanner : string -> Prop :=
| banner_one ws1 body ws2 :
    allBlank ws1 = true -> contains "-->" body = false -> allBlank ws2 = true ->
    CommentBanner (ws1 ++ "<!--" ++ body ++ "-->" ++ ws2)
| banner_more ws1 body ws2 rest :
    allBlank ws1 = true -> contains "-->" body = false -> allBlank ws2 = true ->
    CommentBanner rest ->
    CommentBanner (ws1 ++ "<!--" ++ body ++ "-->" ++ ws2 ++ rest).

(** Leading noise: a byte-order mark, a comment banner, or both. *)
Inductive LeadingNoise : string -> Prop :=
| noise_bom : LeadingNoise BOM
| noise_banner n : CommentBanner n -> LeadingNoise n
| noise_bom_banner n : CommentBanner n -> LeadingNoise (BOM ++ n).

(** Noise-free text: it starts with content, not with a byte-order mark, a
    blank or a comment opener.  A frontmatter delimiter is such a start. *)
Definition noiseFree (s : string) : bool :=
  negb (startsWith BOM s)
  && negb (startsWith "<!--" s)
  && match s with
     | EmptyString => true
     | String c _ => negb (isBlank c)
     end.

(** The first non-blank content of the text is not a comment opener, and
    there is no byte-order mark. *)
Definition leadsWithoutComment (s : string) : bool :=
  negb (startsWith BOM s) && negb (startsWith "<!--" (trimStart s)).

End Manifest.

(* ===================================================================== *)
(** ** Registry controller ([createSkillRegistryController]) *)
(* ===================================================================== *)

Module Controller.
Import Js.

(** A skill record as a JavaScript object: the record and the identity of
    the object holding it.  Two objects are the same skill when they are the
    same object, whatever their fields. *)
Record SkillObject := mkObject {
  address : nat;
  record : Skill
}.

Definition sameObject (a b : SkillObject) : bool :=
  Nat.eqb (address a) (address b).

Definition kebab (s : string) : string := replaceAll "_" "-" s.
Definition snake (s : string) : string := replaceAll "-" "_" s.

(** The keys a skill is registered under: the key given, the lower-cased
    tool name, the original name, and the kebab and snake variants of both. *)
Definition aliasKeys (key : string) (skill : SkillObject) : list string :=
  let tool := toLowerCase (toolName (record skill)) in
  let nm := name (record skill) in
  [key; tool; nm; kebab tool; snake tool; kebab nm; snake nm].

(** The alias map, and the primary keys in registration order. *)
Record State := mkState {
  aliases : list (string * SkillObject);
  ids : list string
}.

Definition empty : State := mkState [] [].

Inductive ControllerError := AliasCollisionError (key : string).

(** [alias] already resolves to a different skill. *)
Definition collides (st : State) (skill : SkillObject) (alias : string) : bool :=
  match map_get alias (aliases st) with
  | Some bound => negb (sameObject bound skill)
  | None => false
  end.

Definition bindAll (keys : list string) (skill : SkillObject)
                   (m : list (string * SkillObject)) :=
  fold_left (fun acc k => map_set k skill acc) keys m.

(** Modelled from the spec: [set] of the registry controller
    ([createSkillRegistryController] in [services/SkillRegistry.ts], of which
    only a test is at hand).  The skill is registered under [key] and its
    derived aliases; the call fails, carrying the offending key, when one of
    them already resolves to a different skill, and then changes nothing. *)
Definition set (key : string) (skill : SkillObject) (st : State)
  : State + ControllerError :=
  match find (collides st skill) (aliasKeys key skill) with
  | Some offending => inr (AliasCollisionError offending)
  | None =>
      inl (mkState (bindAll (aliasKeys key skill) skill (aliases st))
                   (if includes key (ids st) then ids st
                    else app (ids st) [key]))
  end.

(** Modelled from the spec: [get] of the registry controller: the exact key,
    then the key lower-cased and its kebab and snake folds. *)
Definition get (key : string) (st : State) : option SkillObject :=
  map_get key (aliases st)
  <|> map_get (toLowerCase key) (aliases st)
  <|> map_get (kebab (toLowerCase key)) (aliases st)
  <|> map_get (snake (toLowerCase key)) (aliases st).

Definition has (key : string) (st : State) : bool :=
  match get key st with Some _ => true | None => false end.

(** Modelled from the spec: [delete] removes the skill [key] resolves to
    together with every alias pointing at it. *)
Definition delete (key : string) (st : State) : State :=
  match get key st with
  | None => st
  | Some skill =>
      mkState (filter (fun kv => negb (sameObject (snd kv) skill)) (aliases st))
              (filter (fun k => match map_get k (aliases st) with
                                | Some s => negb (sameObject s skill)
                                | None => false
                                end) (ids st))
  end.

Definition clear (_ : State) : State := empty.

(** The distinct registered skills, in registration order. *)
Fixpoint distinct (seen : list nat) (l : list SkillObject) : list SkillObject :=
  match l with
  | [] => []
  | s :: r =>
      if existsb (Nat.eqb (address s)) seen then distinct seen r
      else s :: distinct (address s :: seen) r
  end.

Definition skills (st : State) : list SkillObject :=
  distinct []
    (flat_map (fun k => match map_get k (aliases st) with
                        | Some s => [s]
                        | None => []
                        end) (ids st)).

End Controller.

(* ===================================================================== *)
(** ** Resource indexer *)
(* ===================================================================== *)

Module Indexer.
Import Js.

#[local] Set Warnings "-register-all".

(** What is on disk under a bundle root: files, directories with their
    entries, and directories that cannot be listed. *)
Inductive Node :=
| File (name : string)
| Dir (name : string) (children : list Node)
| Unlistable (name : string).

(** [path.join] of a bundle-relative directory and an entry name. *)
Definition joinPath (dir entry : string) : string :=
  if truthy dir then dir ++ "/" ++ entry else entry.

(** The fixed exclusion set: the three root-level trees, and every directory
    whose name starts with a dot. *)
Definition isExcludedDirectory (relativePath entry : string) : bool :=
  startsWith "." entry
  || includes relativePath ["USER"; "WORK"; "node_modules"].

(** The recursive walk behind the unified map: the bundle-relative paths of
    the files kept, excluded directories pruned, the manifest skipped. *)
Fixpoint walk (manifest dir : string) (n : Node) : list string :=
  match n with
  | File entry =>
      let p := joinPath dir entry in
      if p =? manifest then [] else [p]
  | Dir entry children =>
      let p := joinPath dir entry in
      if isExcludedDirectory p entry then []
      else flat_map (walk manifest p) children
  | Unlistable _ => []
  end.

(** The direct recursive listing behind a legacy map: every file below. *)
Fixpoint listing (dir : string) (n : Node) : list string :=
  match n with
  | File entry => [joinPath dir entry]
  | Dir entry children => flat_map (listing (joinPath dir entry)) children
  | Unlistable _ => []
  end.

Definition nodeName (n : Node) : string :=
  match n with File e | Dir e _ | Unlistable e => e end.

Section WithMime.

(** The extension-to-MIME table, with its default for unknown extensions. *)
Variable detectMimeType : string -> string.

Definition buildMap (root : string) (paths : list string) : SkillResourceMap :=
  fold_left
    (fun m p => map_set p (mkEntry (root ++ "/" ++ p) (detectMimeType p)) m)
    paths [].

(** Modelled from the spec: the unified resource map of a bundle (the
    indexer of [services/SkillRegistry.ts], of which only the tests are at
    hand): a recursive walk of the whole bundle, the manifest and the fixed
    exclusion set left out, keys bundle-relative with case preserved. *)
Definition unifiedMap (root manifest : string) (bundle : list Node)
  : SkillResourceMap :=
  buildMap root (flat_map (walk manifest "") bundle).

(** Modelled from the spec: a legacy map, the recursive listing of one of the
    canonical subdirectories, keys relative to the bundle root. *)
Definition legacyMap (root subdir : string) (bundle : list Node)
  : SkillResourceMap :=
  buildMap root
    (flat_map (listing "")
       (filter (fun n => match n with
                         | Dir entry _ => entry =? subdir
                         | _ => false
                         end) bundle)).

End WithMime.

(** Entry names as a filesystem has them: not empty, no separator inside. *)
Definition validName (s : string) : bool :=
  truthy s && negb (contains "/" s).

Fixpoint validTree (n : Node) : bool :=
  match n with
  | File e => validName e
  | Dir e children => validName e && forallb validTree children
  | Unlistable e => validName e
  end.

(** The directories a key lies under: all its segments but the last. *)
Definition directoriesOf (key : string) : list string :=
  removelast (split "/" key).

(** [key] lies under a directory whose name starts with a dot. *)
Definition underDotDirectory (key : string) : bool :=
  existsb (startsWith ".") (directoriesOf key).

(** The segments of a directory path; none at the bundle root. *)
Definition dirSegments (dir : string) : list string :=
  if truthy dir then split "/" dir else [].

(** What the walk keeps below [dir]: the key continues the segments of [dir]
    with segments of which none but the last starts with a dot, and a key
    that is at the root and has a directory is not under an excluded tree. *)
Definition Kept (dir key : string) : Prop :=
  exists segs,
    split "/" key = app (dirSegments dir) segs
    /\ segs <> []
    /\ existsb (startsWith ".") (removelast segs) = false
    /\ (dirSegments dir = [] -> 2 <= List.length segs ->
        includes (hd "" segs) ["USER"; "WORK"; "node_modules"] = false).

End Indexer.

(* ===================================================================== *)
(** ** Search ranker *)
(* ===================================================================== *)

Module Search.
Import Js.

(** [ParsedSkillQuery] *)
Record ParsedSkillQuery := mkQuery {
  include : list string;
  exclude : list string;
  originalQuery : list string;
  hasExclusions : bool;
  termCount : nat
}.

(** A query as callers give it: one string, or an array of terms. *)
Inductive Query := QString (q : string) | QArray (terms : list string).

Definition rawTerms (q : Query) : list string :=
  match q with
  | QString s => split " " s
  | QArray l => flat_map (split " ") l
  end.

(** The exclusion terms: the terms prefixed with a dash, without the dash. *)
Fixpoint excludeTerms (terms : list string) : list string :=
  match terms with
  | [] => []
  | String "-" t :: r =>
      if truthy t then t :: excludeTerms r else excludeTerms r
  | _ :: r => excludeTerms r
  end.

Fixpoint includeTerms (terms : list string) : list string :=
  match terms with
  | [] => []
  | String "-" _ :: r => includeTerms r
  | t :: r => if truthy t then t :: includeTerms r else includeTerms r
  end.

(** Modelled from the spec: query parsing of the search ranker (the searcher
    is not among the files at hand).  Terms are space-delimited, a leading
    dash marks an exclusion term, empty terms are discarded. *)
Definition parseQuery (q : Query) : ParsedSkillQuery :=
  let inc := includeTerms (rawTerms q) in
  let exc := excludeTerms (rawTerms q) in
  mkQuery inc exc
          (match q with QString s => [s] | QArray l => l end)
          (match exc with [] => false | _ => true end)
          (List.length inc + List.length exc).

(** [term] is a case-insensitive substring of [field]. *)
Definition termIn (term field : string) : bool :=
  contains (toLowerCase term) (toLowerCase field).

Definition matchesName (term : string) (s : Skill) : bool :=
  termIn term (name s) || termIn term (toolName s).

Definition matchesDescription (term : string) (s : Skill) : bool :=
  termIn term (description s).

(** [term] matches at least one of name, toolName and description. *)
Definition matchesAny (term : string) (s : Skill) : bool :=
  matchesName term s || matchesDescription term s.

Definition isExcluded (q : ParsedSkillQuery) (s : Skill) : bool :=
  existsb (fun t => matchesAny t s) (exclude q).

Definition matchesAllIncludes (q : ParsedSkillQuery) (s : Skill) : bool :=
  forallb (fun t => matchesAny t s) (include q).

(** [SkillRank] *)
Record SkillRank := mkRank {
  skill : Skill;
  nameMatches : nat;
  descMatches : nat;
  totalScore : nat
}.

(** [SkillSearchResult] *)
Record SkillSearchResult := mkResult {
  matches : list Skill;
  totalMatches : nat;
  totalSkills : nat;
  feedback : string;
  query : ParsedSkillQuery
}.

Section Ranker.

(** The weights of a name match and of a description match, tuning constants
    of the ranker, and the wording of the feedback line. *)
Variables nameWeight descWeight : nat.
Variable renderFeedback : ParsedSkillQuery -> nat -> nat -> string.

Definition countWhere {A} (p : A -> bool) (l : list A) : nat :=
  List.length (filter p l).

Definition rank (q : ParsedSkillQuery) (s : Skill) : SkillRank :=
  let n := countWhere (fun t => matchesName t s) (include q) in
  let d := countWhere (fun t => matchesDescription t s) (include q) in
  mkRank s n d (nameWeight * n + descWeight * d).

(** Insertion by descending score.  [sortRanks] inserts from the last rank
    to the first, so a rank goes in front of those that score no more than
    it: registration order is kept among equal scores. *)
Fixpoint insertRank (r : SkillRank) (l : list SkillRank) : list SkillRank :=
  match l with
  | [] => [r]
  | h :: t =>
      if Nat.leb (totalScore h) (totalScore r) then r :: l
      else h :: insertRank r t
  end.

Definition sortRanks (l : list SkillRank) : list SkillRank :=
  fold_right insertRank [] l.

(** Modelled from the spec: [search] of the ranker over the registered
    skills: excluded skills are dropped, a skill matches when every include
    term matches one of its fields, matches are ordered by descending score
    with registration order kept among equals. *)
Definition search (skills : list Skill) (q : Query) : SkillSearchResult :=
  let pq := parseQuery q in
  let kept :=
    filter (fun s => matchesAllIncludes pq s && negb (isExcluded pq s)) skills in
  mkResult (map skill (sortRanks (map (rank pq) kept)))
           (countWhere (matchesAllIncludes pq) skills)
           (List.length skills)
           (renderFeedback pq (List.length kept) (List.length skills))
           pq.

End Ranker.

End Search.

(* ===================================================================== *)
(** ** Fixtures: the bundles and registries of the test suite *)
(* ===================================================================== *)

Module Fixtures.
Import Js Resolver.

Definition newline : string := String (ascii_of_nat 10) EmptyString.

Definition guide : ResourceEntry :=
  mkEntry "/skills/test_skill/references/guide.md" "text/markdown".

Definition onboarding : ResourceEntry :=
  mkEntry "/skills/PAI/Workflows/Onboarding.md" "text/markdown".

(** [test_skill]: the legacy layout, no unified map. *)
Definition test_skill : Skill :=
  mkSkill "test_skill" "/skills/test_skill" "test_skill"
          "A sufficiently long demo description." None None None
          "# Skill" "/skills/test_skill/SKILL.md"
          [("scripts/build.sh",
            mkEntry "/skills/test_skill/scripts/build.sh" "application/x-sh")]
          [("references/guide.md", guide)]
          [("assets/logo.svg",
            mkEntry "/skills/test_skill/assets/logo.svg" "image/svg+xml")]
          None.

(** [PAI]: the unified layout. *)
Definition PAI : Skill :=
  mkSkill "PAI" "/skills/PAI" "PAI"
          "A sufficiently long demo description." None None None
          "# PAI" "/skills/PAI/SKILL.md" [] [] []
          (Some [("Workflows/Onboarding.md", onboarding);
                 ("CoreStack.md",
                  mkEntry "/skills/PAI/CoreStack.md" "text/markdown")]).

(** A skill whose references map also holds a bare [guide.md]. *)
Definition shadowed_entry : ResourceEntry :=
  mkEntry "/skills/shadow/guide.md" "text/plain".

Definition shadow : Skill :=
  mkSkill "shadow" "/skills/shadow" "shadow"
          "A sufficiently long demo description." None None None
          "# Shadow" "/skills/shadow/SKILL.md" []
          [("guide.md", shadowed_entry);
           ("references/guide.md",
            mkEntry "/skills/shadow/references/guide.md" "text/markdown")]
          [] None.

Definition registry (key : string) : option Skill :=
  if key =? "test_skill" then Some test_skill
  else if key =? "PAI" then Some PAI
  else if key =? "shadow" then Some shadow
  else None.

(** [createMockSkill({name, toolName})] of the test suite. *)
Definition createMockSkill (name toolName : string) : Skill :=
  mkSkill name "/skills/mock" toolName
          "A sufficiently long demo description." None None None
          "# Mock" "/skills/mock/SKILL.md" [] [] [] None.

(** The two skills of the alias-collision test: distinct objects whose tool
    names differ by the separator only. *)
Definition fooBar : Controller.SkillObject :=
  Controller.mkObject 1 (createMockSkill "foo-bar" "foo_bar").

Definition fooBarV2 : Controller.SkillObject :=
  Controller.mkObject 2 (createMockSkill "foo-bar-v2" "foo-bar").

(** The state after [controller.set('foo_bar', fooBar)] on a new controller. *)
Definition afterFooBar : Controller.State :=
  Controller.mkState
    [("foo_bar", fooBar); ("foo-bar", fooBar)] ["foo_bar"].

(** The [PAI] bundle as it lies on disk, excluded trees included. *)
Definition paiBundle : list Indexer.Node :=
  [Indexer.File "SKILL.md";
   Indexer.File "CoreStack.md";
   Indexer.Dir "Workflows" [Indexer.File "Onboarding.md"];
   Indexer.Dir "Tools" [Indexer.File "Inference.ts"];
   Indexer.Dir "SYSTEM" [Indexer.File "PAISYSTEMARCHITECTURE.md"];
   Indexer.Dir "Components" [Indexer.File "10-intro.md"];
   Indexer.Dir "USER" [Indexer.File "README.md"];
   Indexer.Dir "WORK" [Indexer.File "notes.md"];
   Indexer.Dir "node_modules"
     [Indexer.Dir "fake" [Indexer.File "readme.md"]];
   Indexer.Dir ".git" [Indexer.File "config"];
   Indexer.Dir "docs" [Indexer.Dir ".cache" [Indexer.File "index.md"]]].

(** A stand-in for the MIME table. *)
Definition mimeByExtension (p : string) : string :=
  if Js.contains ".md" p then "text/markdown" else "application/octet-stream".

(** The manifest of the stripping tests, and the two banners put before it. *)
Definition demoManifest : string :=
  "---" ++ newline ++ "name: demo" ++ newline
  ++ "description: A sufficiently long demo description." ++ newline
  ++ "---" ++ newline ++ "# Skill".

Definition generatedBanner : string :=
  "<!--" ++ newline ++ "Generated banner" ++ newline ++ "-->" ++ newline.

Definition twoBanners : string :=
  "<!-- one -->" ++ newline ++ newline ++ "<!-- two -->" ++ newline.

(** A parser that accepts a text starting with the frontmatter delimiter. *)
Definition demoParser (text : string) : Skill + string :=
  if Js.startsWith "---" text
  then inl (createMockSkill "demo" "demo")
  else inr "ManifestFormatError".

(** Four registered skills for the search scenarios. *)
Definition describedSkill (name description : string) : Skill :=
  mkSkill name ("/skills/" ++ name) name description None None None
          "# Skill" ("/skills/" ++ name ++ "/SKILL.md") [] [] [] None.

Definition jwtSkill : Skill :=
  describedSkill "jwt-patterns" "Token based AUTH patterns and practices".
Definition oauthSkill : Skill :=
  describedSkill "oauth-setup" "Guide to delegated authorization flows".
Definition gitSkill : Skill :=
  describedSkill "git-workflows" "Git workflow patterns and best practices".
Definition authSkill : Skill :=
  describedSkill "auth-basics" "Sessions, cookies and password storage".

Definition searchableSkills : list Skill :=
  [jwtSkill; oauthSkill; gitSkill; authSkill].

Definition plainFeedback (q : Search.ParsedSkillQuery) (found total : nat)
  : string := "Found matches".

(** A disk on which every read succeeds. *)
Definition disk (p : string) : string + string := inl ("# " ++ p).

(** A disk on which every read fails. *)
Definition brokenDisk (_ : string) : string + string :=
  inr "ENOENT: no such file or directory".

End Fixtures.

(* ===================================================================== *)
(** ** Resource types and renderer helpers ([types.ts],
       [lib/renderers/resourceMapToArray.ts]) *)
(* ===================================================================== *)

Module ResourceTypes.
Import Js.

(** [const ResourceTypes = ['script', 'asset', 'reference']] *)
Definition ResourceTypes : list string := ["script"; "asset"; "reference"].

(** [assertIsValidResourceType]: returns, or throws for a type outside the
    list. *)
Definition assertIsValidResourceType (type : string) : unit + Resolver.JsError :=
  if negb (includes type ResourceTypes)
  then inr (Resolver.Error ("Invalid resource type: " ++ type))
  else inl tt.

End ResourceTypes.

Module Rendering.

(** [type SkillResource] *)
Record SkillResource := mkResource {
  relativePath : string;
  absolutePath : string;
  mimeType : string
}.

(** [resourceMapToArray]: the entries of the map in insertion order, each
    with its key as [relativePath] beside the fields of its value. *)
Definition resourceMapToArray (resources : SkillResourceMap)
  : list SkillResource :=
  map (fun entry =>
         match entry with
         | (relativePath, mkEntry absolutePath mimeType) =>
             mkResource relativePath absolutePath mimeType
         end)
      resources.

End Rendering.

(* ===================================================================== *)
(** ** Predicates the further properties are stated with *)
(* ===================================================================== *)

Module Shapes.
Import Js Resolver.

(** The last character of a string. *)
Fixpoint lastChar (s : string) : option ascii :=
  match s with
  | EmptyString => None
  | String c EmptyString => Some c
  | String _ r => lastChar r
  end.

(** Two calls resolve alike: they read the same files and succeed with the
    same value.  (Their not-found messages quote their own arguments.) *)
Definition SameResolution (a b : Outcome) : Prop :=
  reads a = reads b /\ forall r, result a = inl r <-> result b = inl r.

(** [e] is stored under key [k] in one of the four maps of [skill]. *)
Definition StoredUnder (skill : Skill) (k : string) (e : ResourceEntry) : Prop :=
  In (k, e) (scripts skill) \/ In (k, e) (references skill)
  \/ In (k, e) (assets skill) \/ In (k, e) (entriesOf (resources skill)).

(** The legacy map and directory a type name stands for, with case folded,
    singular or plural. *)
Inductive LegacyType (skill : Skill) (type : string)
  : string -> SkillResourceMap -> Prop :=
| legacy_scripts :
    In (toLowerCase type) ["script"; "scripts"] ->
    LegacyType skill type "scripts" (scripts skill)
| legacy_assets :
    In (toLowerCase type) ["asset"; "assets"] ->
    LegacyType skill type "assets" (assets skill)
| legacy_references :
    In (toLowerCase type) ["reference"; "references"] ->
    LegacyType skill type "references" (references skill).

(** The unified-map directory a type name stands for, with case folded,
    singular or plural. *)
Inductive ConventionType (type : string) : string -> Prop :=
| convention_workflows :
    In (toLowerCase type) ["workflow"; "workflows"] ->
    ConventionType type "Workflows"
| convention_tools :
    In (toLowerCase type) ["tool"; "tools"] ->
    ConventionType type "Tools".

(** The type names the unified lookup treats specially, with case folded. *)
Definition unifiedKeywords : list string :=
  ["workflow"; "workflows"; "tool"; "tools";
   "resource"; "resources"; ""; "doc"; "docs"].

(** The type names the legacy lookup answers to, with case folded. *)
Definition legacyKeywords : list string :=
  ["script"; "scripts"; "asset"; "assets"; "reference"; "references"].

(** The generic type names, with case folded. *)
Definition GenericType (type : string) : Prop :=
  In (toLowerCase type) ["resource"; "resources"; "doc"; "docs"].

(** [nr] is a non-empty normal form. *)
Definition NormalForm (nr : string) : Prop :=
  normalizeResourcePath nr = nr /\ nr <> "".

(** Every candidate is the path [nr] behind some prefix. *)
Definition Prefixed (nr : string) (candidates : list string) : Prop :=
  forall c, In c candidates -> exists x, c = x ++ nr.

(** Some key of the map matches some candidate, with case folded. *)
Definition SomeKeyMatches (m : SkillResourceMap) (candidates : list string)
  : Prop :=
  exists c k e,
    In c candidates /\ normalizeResourcePath c <> ""
    /\ In (k, e) m
    /\ toLowerCase k = toLowerCase (normalizeResourcePath c).

End Shapes.

(* ===================================================================== *)
(** ** ASCII text *)
(* ===================================================================== *)

(** [String.prototype.toLowerCase] folds every cased letter of Unicode
    (U+212A, the Kelvin sign, becomes [k]; [É] becomes [é]), where
    [Js.toLowerCase] folds the letters [A] to [Z] and leaves every byte of a
    longer encoding alone.  The two agree on the strings all of whose
    characters are below 128.  A property that needs the folded pass of
    [findInMap], or the folded comparison of a type name, to answer as the
    code does is therefore stated for ASCII keys, paths and type names, with
    the predicates below. *)
Module AsciiText.
Import Resolver.

(** The character is one of the 128 of ASCII. *)
Definition isAsciiChar (c : ascii) : bool := Nat.ltb (nat_of_ascii c) 128.

(** Every character of the string is. *)
Fixpoint isAscii (s : string) : bool :=
  match s with
  | EmptyString => true
  | String c r => isAsciiChar c && isAscii r
  end.

(** Every key of the map is ASCII. *)
Definition asciiKeys (m : SkillResourceMap) : bool :=
  forallb (fun kv => isAscii (fst kv)) m.

(** Every key of the four maps of the skill is ASCII. *)
Definition asciiSkill (skill : Skill) : bool :=
  asciiKeys (scripts skill) && asciiKeys (references skill)
  && asciiKeys (assets skill) && asciiKeys (entriesOf (resources skill)).

End AsciiText.

Module MoreFixtures.



(** A skill with a [SYSTEM] directory in its unified map. *)
Definition architecture : ResourceEntry :=
  mkEntry "/skills/PAI/SYSTEM/PAISYSTEMARCHITECTURE.md" "text/markdown".

Definition systemSkill : Skill :=
  mkSkill "PAI" "/skills/PAI" "PAI"
          "A sufficiently long demo description." None None None
          "# PAI" "/skills/PAI/SKILL.md" [] [] []
          (Some [("SYSTEM/PAISYSTEMARCHITECTURE.md", architecture)]).

Definition systemRegistry (key : string) : option Skill :=
  if key =? "PAI" then Some systemSkill else None.

End MoreFixtures.

(* ===================================================================== *)
(** * Properties *)
(* ===================================================================== *)

(** ** Maps and strings *)

Lemma truthy_false_iff (s : string) : Js.truthy s = false <-> s = "".
Proof.
  unfold Js.truthy. destruct (String.eqb_spec s ""); simpl; split; congruence.
Qed.

Lemma truthy_true_iff (s : string) : Js.truthy s = true <-> s <> "".
Proof.
  unfold Js.truthy. destruct (String.eqb_spec s ""); simpl; split; congruence.
Qed.

Lemma includes_In (x : string) (xs : list string) :
  Js.includes x xs = true <-> In x xs.
Proof.
  induction xs as [|y r IH]; simpl.
  - split; [discriminate | tauto].
  - rewrite orb_true_iff, IH, String.eqb_eq. tauto.
Qed.

Lemma orElse_Some {A} (a b : option A) (x : A) :
  a <|> b = Some x -> a = Some x \/ (a = None /\ b = Some x).
Proof. destruct a; simpl; auto. Qed.

Lemma map_get_In {V} (k : string) (m : list (string * V)) (v : V) :
  map_get k m = Some v -> In (k, v) m.
Proof.
  induction m as [|[k' v'] r IH]; simpl; [discriminate|].
  destruct (String.eqb_spec k' k) as [->|_].
  - intros [= ->]. now left.
  - intros H. right. auto.
Qed.

Lemma map_get_set {V} (n k : string) (v : V) (m : list (string * V)) :
  map_get n (map_set k v m) = if k =? n then Some v else map_get n m.
Proof.
  induction m as [|[k' v'] r IH]; simpl.
  - reflexivity.
  - destruct (String.eqb_spec k' k) as [->|Hk]; simpl.
    + destruct (String.eqb_spec k n); reflexivity.
    + rewrite IH. destruct (String.eqb_spec k' n) as [->|_]; [|reflexivity].
      destruct (String.eqb_spec k n); congruence.
Qed.

Lemma map_get_In_some {V} (k : string) (m : list (string * V)) (v : V) :
  In (k, v) m -> exists v', map_get k m = Some v'.
Proof.
  induction m as [|[k' v'] r IH]; simpl; [tauto|].
  intros [[= -> ->]|H].
  - rewrite String.eqb_refl. eauto.
  - destruct (k' =? k); eauto.
Qed.

Lemma startsWith_app p s :
  Js.startsWith p s = true -> exists r, s = p ++ r.
Proof.
  revert s. induction p as [|a p IH]; intros s; simpl.
  - eauto.
  - destruct s as [|b s]; [discriminate|].
    intros H. apply andb_true_iff in H. destruct H as [Hab Hp].
    apply Ascii.eqb_eq in Hab. subst b.
    destruct (IH s Hp) as [r ->]. eauto.
Qed.

(** ** The resolver's lookups only ever hand out indexed entries *)

Module ResolverFacts.
Import Js Resolver.

Lemma loweredMap_snoc (m : SkillResourceMap) (k : string) (v : ResourceEntry) :
  loweredMap (app m [(k, v)]) = map_set (toLowerCase k) v (loweredMap m).
Proof. unfold loweredMap. now rewrite fold_left_app. Qed.

Lemma loweredMap_get (n : string) (m : SkillResourceMap) :
  map_get n (loweredMap m) = map_get n (foldedEntries m).
Proof.
  induction m as [|[k v] m IH] using rev_ind; [reflexivity|].
  rewrite loweredMap_snoc, map_get_set. unfold foldedEntries.
  rewrite map_app, rev_app_distr. simpl.
  destruct (toLowerCase k =? n); [reflexivity | exact IH].
Qed.

Lemma loweredMap_get_In (n : string) (m : SkillResourceMap) (e : ResourceEntry) :
  map_get n (loweredMap m) = Some e ->
  exists k, In (k, e) m /\ toLowerCase k = n.
Proof.
  rewrite loweredMap_get. intros H. apply map_get_In in H.
  unfold foldedEntries in H. rewrite <- in_rev in H.
  apply in_map_iff in H. destruct H as [[k v] [[= <- <-] Hin]]. eauto.
Qed.

Lemma loweredMap_get_some (k : string) (m : SkillResourceMap) (e : ResourceEntry) :
  In (k, e) m -> exists e', map_get (toLowerCase k) (loweredMap m) = Some e'.
Proof.
  intros Hin. rewrite loweredMap_get.
  apply map_get_In_some with (v := e). unfold foldedEntries.
  rewrite <- in_rev. apply in_map_iff. exists (k, e). auto.
Qed.

Lemma probeExact_In m cands e :
  probeExact m cands = Some e -> exists k, In (k, e) m.
Proof.
  induction cands as [|c r IH]; simpl; [discriminate|].
  destruct (negb (truthy (normalizeResourcePath c))); [exact IH|].
  destruct (map_get (normalizeResourcePath c) m) eqn:Hg; [|exact IH].
  intros [= <-]. eauto using map_get_In.
Qed.

Lemma probeLowered_In m cands e :
  probeLowered (loweredMap m) cands = Some e -> exists k, In (k, e) m.
Proof.
  induction cands as [|c r IH]; simpl; [discriminate|].
  destruct (negb (truthy (toLowerCase (normalizeResourcePath c)))); [exact IH|].
  destruct (map_get _ (loweredMap m)) eqn:Hg; [|exact IH].
  intros [= <-]. apply loweredMap_get_In in Hg. destruct Hg as [k [Hin _]]. eauto.
Qed.

Lemma findInMap_In om cands e :
  findInMap om cands = Some e -> exists k, In (k, e) (entriesOf om).
Proof.
  unfold findInMap. destruct (probeExact _ cands) eqn:Hx.
  - intros [= <-]. eauto using probeExact_In.
  - apply probeLowered_In.
Qed.

Lemma resolveLegacyResource_Indexed skill ty rel e :
  resolveLegacyResource skill ty rel = Some e -> Indexed skill e.
Proof.
  unfold resolveLegacyResource, Indexed.
  repeat match goal with |- context [if ?b then _ else _] => destruct b end;
    try discriminate; intros H; apply findInMap_In in H; simpl in H;
    destruct H as [k H]; exists k; tauto.
Qed.

Lemma resolveUnifiedResource_Indexed skill ty rel e :
  resolveUnifiedResource skill ty rel = Some e -> Indexed skill e.
Proof.
  unfold resolveUnifiedResource, Indexed.
  destruct (resources skill) as [[|kv m]|] eqn:Hr; try discriminate.
  repeat match goal with |- context [if ?b then _ else _] => destruct b end;
    intros H; apply findInMap_In in H;
    destruct H as [k H]; exists k; do 3 right; exact H.
Qed.

Lemma retryByPrefix_Indexed skill rel e :
  retryByPrefix skill rel = Some e -> Indexed skill e.
Proof.
  unfold retryByPrefix. intros H.
  repeat (apply orElse_Some in H; destruct H as [H|[_ H]]);
    repeat match type of H with
           | (if ?b then _ else _) = _ => destruct b
           end;
    try discriminate; eauto using resolveLegacyResource_Indexed.
Qed.

Lemma lookupEntry_Indexed skill ty rel e :
  lookupEntry skill ty rel = Some e -> Indexed skill e.
Proof.
  unfold lookupEntry.
  destruct (resolveLegacyResource skill ty rel <|> _) as [e2|] eqn:H2.
  - intros [= <-]. apply orElse_Some in H2. destruct H2 as [H|[_ H]];
      eauto using resolveLegacyResource_Indexed, resolveUnifiedResource_Indexed.
  - destruct (includes _ _ && truthy rel).
    + destruct (retryByPrefix skill rel) as [e3|] eqn:H3.
      * intros [= <-]. eauto using retryByPrefix_Indexed.
      * destruct (rel =? ""); [|discriminate]. intros H.
        repeat (apply orElse_Some in H; destruct H as [H|[_ H]]);
          eauto using resolveLegacyResource_Indexed,
                      resolveUnifiedResource_Indexed.
    + destruct (rel =? ""); [|discriminate]. intros H.
      repeat (apply orElse_Some in H; destruct H as [H|[_ H]]);
        eauto using resolveLegacyResource_Indexed,
                    resolveUnifiedResource_Indexed.
Qed.

End ResolverFacts.

(** ** The resolver, case by case *)

Module ResolverCases.
Import Js Resolver ResolverFacts.

Lemma isUnsafeResourcePath_spec (value : string) :
  isUnsafeResourcePath value = true <-> UnsafeCandidate value.
Proof.
  unfold isUnsafeResourcePath, UnsafeCandidate, segments.
  destruct (truthy (normalizeResourcePath value)) eqn:Ht; cbn [negb].
  - apply truthy_true_iff in Ht.
    destruct (startsWith "/" value); cbn [orb]; [intuition congruence|].
    destruct (hasDrivePrefix value); cbn [orb]; [intuition congruence|].
    rewrite includes_In, filter_In.
    split.
    + intros [H _]. auto.
    + intros [H|[H|[H|H]]]; try congruence. split; [exact H | reflexivity].
  - apply truthy_false_iff in Ht. intuition congruence.
Qed.

Lemma notFoundMessage_isResourceNotFound (args : Args) :
  isResourceNotFound (Error (notFoundMessage args)) = true.
Proof. reflexivity. Qed.

Lemma resolver_cases controller_get readSkillFile args :
  Case controller_get readSkillFile args
       (resolver controller_get readSkillFile args).
Proof.
  unfold resolver.
  destruct (controller_get (skill_name args)) as [skill|] eqn:Hs.
  - destruct (isUnsafeResourcePath (lookupPathOf args)) eqn:Hu.
    + eapply case_unsafe; eauto.
    + destruct (lookupEntry skill (rawTypeOf args) (relative_path args))
        as [e|] eqn:Hl.
      * eapply case_hit; eauto.
      * eapply case_miss; eauto.
  - now apply case_no_skill.
Qed.

Lemma readEntry_reads readSkillFile e :
  reads (readEntry readSkillFile e) = [absolutePath e].
Proof. unfold readEntry. destruct (readSkillFile _); reflexivity. Qed.

Lemma readEntry_ok readSkillFile e r :
  result (readEntry readSkillFile e) = inl r ->
  r = mkResolved (absolutePath e) (resolved_content r) (mimeType e)
  /\ readSkillFile (absolutePath e) = inl (resolved_content r).
Proof.
  unfold readEntry. destruct (readSkillFile _) as [c|c]; simpl.
  - intros [= <-]. simpl. auto.
  - discriminate.
Qed.

Lemma readEntry_failed readSkillFile e err :
  result (readEntry readSkillFile e) = inr err ->
  exists cause,
    readSkillFile (absolutePath e) = inr cause
    /\ err = Error ("Failed to read resource at " ++ absolutePath e
                    ++ ": " ++ cause).
Proof.
  unfold readEntry. destruct (readSkillFile _) as [c|c]; simpl.
  - discriminate.
  - intros [= <-]. eauto.
Qed.

End ResolverCases.

(** ** Path safety (C1) *)

Module PathSafety.
Import Js Resolver ResolverFacts ResolverCases.

(** C1, as the code has it.  For a registered skill, a call whose candidate
    path (the relative path; the type when the relative path is empty; the
    default type when both are) is empty after normalization, begins with a
    slash or a drive-letter prefix, or has a [..] segment after normalization
    fails with the resolver's not-found error and reads no file.  The relative
    paths [/etc/passwd], [C:\Windows\x] (with single or doubled backslashes)
    and [../../secret] are rejected so for every skill and type; the empty
    string is unsafe as a candidate, and a call with an empty relative path
    is judged on its type. *)
Theorem unsafe_candidate_rejected :
  forall (controller_get : string -> option Skill)
         (readSkillFile : string -> string + string)
         (skill : Skill) (name type : string),
    controller_get name = Some skill ->
    let rejected args :=
      resolver controller_get readSkillFile args
      = mkOutcome (inr (Error (notFoundMessage args))) []
      /\ isResourceNotFound (Error (notFoundMessage args)) = true in
    (forall relative_path,
        UnsafeCandidate (lookupPathOf (mkArgs name type relative_path)) ->
        rejected (mkArgs name type relative_path))
    /\ rejected (mkArgs name type "/etc/passwd")
    /\ rejected (mkArgs name type "C:\Windows\x")
    /\ rejected (mkArgs name type "C:\\Windows\\x")
    /\ rejected (mkArgs name type "../../secret")
    /\ isUnsafeResourcePath "" = true
    /\ lookupPathOf (mkArgs name type "")
       = (if truthy type then type else "resource").
Proof.
  intros get read skill nm ty Hget rejected.
  assert (Hgen : forall rel,
             isUnsafeResourcePath (lookupPathOf (mkArgs nm ty rel)) = true ->
             rejected (mkArgs nm ty rel)).
  { intros rel Hu. unfold rejected, resolver. simpl skill_name.
    rewrite Hget, Hu. split; reflexivity. }
  split; [|split; [|split; [|split; [|split; [|split]]]]];
    try (apply Hgen; reflexivity); try reflexivity.
  intros rel Hu. apply Hgen. now apply isUnsafeResourcePath_spec.
Qed.

(** The theorem at the registry of the test suite: a path that climbs out
    of the bundle from inside a directory. *)
Lemma unsafe_candidate_rejected_witness :
  resolver Fixtures.registry Fixtures.disk
           (mkArgs "PAI" "workflow" "Workflows/../../secret")
  = mkOutcome
      (inr (Error (notFoundMessage
                     (mkArgs "PAI" "workflow" "Workflows/../../secret")))) []
  /\ isResourceNotFound
       (Error (notFoundMessage
                 (mkArgs "PAI" "workflow" "Workflows/../../secret"))) = true.
Proof.
  apply (proj1 (unsafe_candidate_rejected Fixtures.registry Fixtures.disk
                  Fixtures.PAI "PAI" "workflow" eq_refl)).
  right; right; right. simpl. auto.
Defined.

(** C1, as stated, fails: an empty relative path is not rejected for every
    type.  The type is then the candidate, and a type naming an indexed file
    resolves it. *)
Lemma empty_relative_path_not_rejected :
  Fixtures.registry "test_skill" = Some Fixtures.test_skill
  /\ resolver Fixtures.registry Fixtures.disk
       (mkArgs "test_skill" "references/guide.md" "")
     = mkOutcome
         (inl (mkResolved "/skills/test_skill/references/guide.md"
                          "# /skills/test_skill/references/guide.md"
                          "text/markdown"))
         ["/skills/test_skill/references/guide.md"].
Proof. split; reflexivity. Qed.

End PathSafety.

(** ** Only indexed files are read (C2) *)

Module IndexedOnly.
Import Js Resolver ResolverFacts ResolverCases.

(** C2.  A call that returns successfully returns the absolute path and MIME
    type of an entry of one of the four pre-indexed maps of the named skill,
    with the content read at that path; and whatever the outcome, every path
    a call reads is the absolute path of such an entry: no path is built from
    the type or the relative path. *)
Theorem resolver_returns_indexed_entry :
  forall (controller_get : string -> option Skill)
         (readSkillFile : string -> string + string) (args : Args),
    (forall r,
        result (resolver controller_get readSkillFile args) = inl r ->
        exists skill e,
          controller_get (skill_name args) = Some skill
          /\ Indexed skill e
          /\ absolute_path r = absolutePath e
          /\ resolved_mimeType r = mimeType e
          /\ readSkillFile (absolutePath e) = inl (resolved_content r)
          /\ reads (resolver controller_get readSkillFile args)
             = [absolutePath e])
    /\ (forall p,
           In p (reads (resolver controller_get readSkillFile args)) ->
           exists skill e,
             controller_get (skill_name args) = Some skill
             /\ Indexed skill e /\ p = absolutePath e).
Proof.
  intros get read args.
  destruct (resolver_cases get read args) as [Hs|skill Hs Hu|skill Hs Hu Hl|skill e Hs Hu Hl];
    (split; [intros r Hr | intros p Hp]); simpl in *;
    try discriminate; try contradiction.
  - apply readEntry_ok in Hr. destruct Hr as [Hr Hc].
    exists skill, e. rewrite readEntry_reads. rewrite Hr at 1 2. simpl.
    eauto 10 using lookupEntry_Indexed.
  - rewrite readEntry_reads in Hp. destruct Hp as [<-|[]].
    exists skill, e. eauto using lookupEntry_Indexed.
Qed.

(** The theorem at the unified-layout skill of the test suite. *)
Lemma resolver_returns_indexed_entry_witness :
  exists skill e,
    Fixtures.registry "PAI" = Some skill
    /\ Indexed skill e
    /\ "/skills/PAI/Workflows/Onboarding.md" = absolutePath e
    /\ "text/markdown" = mimeType e
    /\ Fixtures.disk (absolutePath e)
       = inl "# /skills/PAI/Workflows/Onboarding.md"
    /\ reads (resolver Fixtures.registry Fixtures.disk
                (mkArgs "PAI" "" "Workflows\Onboarding.md"))
       = [absolutePath e].
Proof.
  exact (proj1 (resolver_returns_indexed_entry Fixtures.registry Fixtures.disk
                  (mkArgs "PAI" "" "Workflows\Onboarding.md"))
               (mkResolved "/skills/PAI/Workflows/Onboarding.md"
                           "# /skills/PAI/Workflows/Onboarding.md"
                           "text/markdown")
               eq_refl).
Defined.

End IndexedOnly.

(** ** What a failure tells the caller (C5) *)

Module Failures.
Import Js Resolver ResolverFacts ResolverCases.

(** C5, as the code has it.  A call that fails before any read (unknown
    skill, unsafe path, no matching entry) throws a message made of fixed
    text and the caller's own skill name, type (or the default type) and
    relative path.  A call that fails on the read throws a message that names
    the absolute path of the indexed entry and the cause. *)
Theorem failure_message_content :
  forall (controller_get : string -> option Skill)
         (readSkillFile : string -> string + string) (args : Args)
         (err : JsError),
    result (resolver controller_get readSkillFile args) = inr err ->
    (reads (resolver controller_get readSkillFile args) = []
     /\ (errorMessage err = "Skill not found: " ++ skill_name args
         \/ errorMessage err
            = "Resource not found: Skill " ++ dquote ++ skill_name args
              ++ dquote ++ " does not have a "
              ++ (if truthy (type args) then type args else "resource")
              ++ " at path " ++ dquote ++ relative_path args ++ dquote))
    \/ (exists skill e cause,
           controller_get (skill_name args) = Some skill
           /\ Indexed skill e
           /\ readSkillFile (absolutePath e) = inr cause
           /\ reads (resolver controller_get readSkillFile args)
              = [absolutePath e]
           /\ errorMessage err
              = "Failed to read resource at " ++ absolutePath e
                ++ ": " ++ cause).
Proof.
  intros get read args err.
  destruct (resolver_cases get read args) as [Hs|skill Hs Hu|skill Hs Hu Hl|skill e Hs Hu Hl];
    simpl; intros Hr.
  - injection Hr as <-. left. auto.
  - injection Hr as <-. left. split; [reflexivity | right; reflexivity].
  - injection Hr as <-. left. split; [reflexivity | right; reflexivity].
  - right. apply readEntry_failed in Hr. destruct Hr as [cause [Hc ->]].
    exists skill, e, cause. rewrite readEntry_reads.
    eauto 10 using lookupEntry_Indexed.
Qed.

(** The theorem at a lookup that finds nothing. *)
Lemma failure_message_content_witness :
  (reads (resolver Fixtures.registry Fixtures.disk
            (mkArgs "test_skill" "script" "missing.sh")) = []
   /\ (errorMessage
         (Error (notFoundMessage (mkArgs "test_skill" "script" "missing.sh")))
       = "Skill not found: test_skill"
       \/ errorMessage
            (Error (notFoundMessage (mkArgs "test_skill" "script" "missing.sh")))
          = "Resource not found: Skill " ++ dquote ++ "test_skill" ++ dquote
            ++ " does not have a script at path " ++ dquote ++ "missing.sh"
            ++ dquote))
  \/ (exists skill e cause,
         Fixtures.registry "test_skill" = Some skill
         /\ Indexed skill e
         /\ Fixtures.disk (absolutePath e) = inr cause
         /\ reads (resolver Fixtures.registry Fixtures.disk
                     (mkArgs "test_skill" "script" "missing.sh"))
            = [absolutePath e]
         /\ errorMessage
              (Error (notFoundMessage
                        (mkArgs "test_skill" "script" "missing.sh")))
            = "Failed to read resource at " ++ absolutePath e ++ ": " ++ cause).
Proof.
  exact (failure_message_content Fixtures.registry Fixtures.disk
           (mkArgs "test_skill" "script" "missing.sh")
           (Error (notFoundMessage (mkArgs "test_skill" "script" "missing.sh")))
           eq_refl).
Defined.

(** C5, as stated, fails on a read failure: the message carries the absolute
    path of the entry, which no argument of the call contains. *)
Lemma read_failure_names_absolute_path :
  result (resolver Fixtures.registry Fixtures.brokenDisk
            (mkArgs "test_skill" "reference" "guide.md"))
  = inr (Error ("Failed to read resource at "
                ++ "/skills/test_skill/references/guide.md"
                ++ ": ENOENT: no such file or directory"))
  /\ contains "/skills/test_skill/references/guide.md"
       ("Failed to read resource at "
        ++ "/skills/test_skill/references/guide.md"
        ++ ": ENOENT: no such file or directory") = true
  /\ contains "/skills" "test_skill" = false
  /\ contains "/skills" "reference" = false
  /\ contains "/skills" "guide.md" = false.
Proof. repeat split; reflexivity. Qed.

End Failures.

(** ** Probing a map: exact case first, folded case second (C8) *)

Module Probing.
Import Js Resolver ResolverFacts ResolverCases AsciiText.

Lemma toLowerCase_empty (s : string) : toLowerCase s = "" <-> s = "".
Proof. destruct s; simpl; split; congruence. Qed.


Lemma probeExact_hit m pre c post e :
  ExactMiss m pre ->
  normalizeResourcePath c <> "" ->
  map_get (normalizeResourcePath c) m = Some e ->
  probeExact m (app pre (c :: post)) = Some e.
Proof.
  intros Hm Hn Hg. induction pre as [|c' r IH]; simpl.
  - apply truthy_true_iff in Hn. now rewrite Hn, Hg.
  - assert (Hr : ExactMiss m r) by (intros x Hx; apply Hm; now right).
    destruct (Hm c' (or_introl eq_refl)) as [H|H]; rewrite H; simpl; auto.
    destruct (truthy (normalizeResourcePath c')); simpl; auto.
Qed.


Lemma findInMap_exact m pre c post e :
  ExactMiss m pre ->
  normalizeResourcePath c <> "" ->
  map_get (normalizeResourcePath c) m = Some e ->
  findInMap (Some m) (app pre (c :: post)) = Some e.
Proof.
  intros Hm Hn Hg. unfold findInMap. simpl entriesOf.
  now rewrite (probeExact_hit m pre c post e Hm Hn Hg).
Qed.









End Probing.

(** ** Legacy typed lookup (C7) and the retry by path prefix (C9) *)

Module Legacy.
Import Js Resolver ResolverFacts ResolverCases Probing.

Lemma rawTypeOf_typed name type rel :
  toLowerCase type <> "" -> rawTypeOf (mkArgs name type rel) = type.
Proof.
  intros H. unfold rawTypeOf. simpl.
  assert (Ht : truthy type = true).
  { apply truthy_true_iff. intros ->. now apply H. }
  now rewrite Ht.
Qed.

Lemma resolveLegacy_scripts skill type rel :
  In (toLowerCase type) ["script"; "scripts"] ->
  resolveLegacyResource skill type rel
  = findInMap (Some (scripts skill)) (legacyCandidates "scripts" rel).
Proof.
  unfold resolveLegacyResource. intros [<-|[<-|[]]];
    rewrite String.eqb_refl; [reflexivity | now rewrite orb_true_r].
Qed.

Lemma resolveLegacy_assets skill type rel :
  In (toLowerCase type) ["asset"; "assets"] ->
  resolveLegacyResource skill type rel
  = findInMap (Some (assets skill)) (legacyCandidates "assets" rel).
Proof.
  unfold resolveLegacyResource. intros [H|[H|[]]]; rewrite <- H; reflexivity.
Qed.

Lemma resolveLegacy_references skill type rel :
  In (toLowerCase type) ["reference"; "references"] ->
  resolveLegacyResource skill type rel
  = findInMap (Some (references skill)) (legacyCandidates "references" rel).
Proof.
  unfold resolveLegacyResource. intros [H|[H|[]]]; rewrite <- H; reflexivity.
Qed.

Lemma resolveLegacy_other skill type rel :
  ~ In (toLowerCase type)
       ["script"; "scripts"; "asset"; "assets"; "reference"; "references"] ->
  resolveLegacyResource skill type rel = None.
Proof.
  unfold resolveLegacyResource. intros H.
  repeat match goal with
         | |- context [?a =? ?b] =>
             destruct (String.eqb_spec a b) as [Heq|_];
             [exfalso; apply H; rewrite Heq; simpl; tauto|]
         end.
  reflexivity.
Qed.

Lemma lookupEntry_first_hit skill type rel e :
  resolveLegacyResource skill type rel = Some e ->
  lookupEntry skill type rel = Some e.
Proof. unfold lookupEntry. now intros ->. Qed.

Lemma resolver_hit controller_get readSkillFile args skill e :
  controller_get (skill_name args) = Some skill ->
  isUnsafeResourcePath (lookupPathOf args) = false ->
  lookupEntry skill (rawTypeOf args) (relative_path args) = Some e ->
  resolver controller_get readSkillFile args = readEntry readSkillFile e.
Proof. unfold resolver. now intros -> -> ->. Qed.

(** C7, as the code has it.  With [references/guide.md] in the references
    map and no entry under the bare key [guide.md], a reference request for
    [guide.md] resolves to the same entry, and so to the same absolute path,
    content and MIME type, as a request for [references/guide.md]; the type
    is matched with case folded, singular or plural.  The typed lookup goes
    to the scripts, assets or references map by the folded type and tries
    the normalized path, then the path under the type directory unless the
    path is under it already. *)
Theorem legacy_prefix_fallback :
  (forall (controller_get : string -> option Skill)
          (readSkillFile : string -> string + string)
          (skill : Skill) (name type : string) (e : ResourceEntry),
      controller_get name = Some skill ->
      In (toLowerCase type) ["reference"; "references"] ->
      map_get "references/guide.md" (references skill) = Some e ->
      map_get "guide.md" (references skill) = None ->
      resolver controller_get readSkillFile (mkArgs name type "guide.md")
      = resolver controller_get readSkillFile
                 (mkArgs name type "references/guide.md")
      /\ reads (resolver controller_get readSkillFile
                         (mkArgs name type "guide.md")) = [absolutePath e]
      /\ forall content,
           readSkillFile (absolutePath e) = inl content ->
           result (resolver controller_get readSkillFile
                            (mkArgs name type "guide.md"))
           = inl (mkResolved (absolutePath e) content (mimeType e)))
  /\ (forall skill type rel,
         (In (toLowerCase type) ["script"; "scripts"] ->
          resolveLegacyResource skill type rel
          = findInMap (Some (scripts skill)) (legacyCandidates "scripts" rel))
         /\ (In (toLowerCase type) ["asset"; "assets"] ->
             resolveLegacyResource skill type rel
             = findInMap (Some (assets skill)) (legacyCandidates "assets" rel))
         /\ (In (toLowerCase type) ["reference"; "references"] ->
             resolveLegacyResource skill type rel
             = findInMap (Some (references skill))
                         (legacyCandidates "references" rel)))
  /\ (forall dir rel,
         normalizeResourcePath rel <> "" ->
         legacyCandidates dir rel
         = if startsWith (toLowerCase dir ++ "/")
                         (toLowerCase (normalizeResourcePath rel))
           then [normalizeResourcePath rel]
           else [normalizeResourcePath rel;
                 dir ++ "/" ++ normalizeResourcePath rel]).
Proof.
  split; [|split].
  - intros get read skill nm ty e Hget Hty Hfull Hbare.
    assert (Hne : toLowerCase ty <> "").
    { destruct Hty as [<-|[<-|[]]]; discriminate. }
    assert (H1 : resolver get read (mkArgs nm ty "guide.md") = readEntry read e).
    { apply resolver_hit with (skill := skill); [exact Hget | reflexivity |].
      rewrite rawTypeOf_typed by exact Hne. apply lookupEntry_first_hit.
      rewrite resolveLegacy_references by exact Hty.
      apply (findInMap_exact (references skill) ["guide.md"]
                             "references/guide.md" [] e).
      - intros c [<-|[]]. right. exact Hbare.
      - discriminate.
      - exact Hfull. }
    assert (H2 : resolver get read (mkArgs nm ty "references/guide.md")
                 = readEntry read e).
    { apply resolver_hit with (skill := skill); [exact Hget | reflexivity |].
      rewrite rawTypeOf_typed by exact Hne. apply lookupEntry_first_hit.
      rewrite resolveLegacy_references by exact Hty.
      apply (findInMap_exact (references skill) [] "references/guide.md" [] e).
      - intros c [].
      - discriminate.
      - exact Hfull. }
    rewrite H1, H2. split; [reflexivity|]. split; [apply readEntry_reads|].
    intros content Hc. unfold readEntry. now rewrite Hc.
  - intros skill ty rel. split; [|split].
    + apply resolveLegacy_scripts.
    + apply resolveLegacy_assets.
    + apply resolveLegacy_references.
  - intros dir rel Hn. unfold legacyCandidates.
    apply truthy_true_iff in Hn. now rewrite Hn.
Qed.

(** The theorem at the legacy-layout skill of the test suite. *)
Lemma legacy_prefix_fallback_witness :
  resolver Fixtures.registry Fixtures.disk
           (mkArgs "test_skill" "Reference" "guide.md")
  = resolver Fixtures.registry Fixtures.disk
             (mkArgs "test_skill" "Reference" "references/guide.md")
  /\ reads (resolver Fixtures.registry Fixtures.disk
                     (mkArgs "test_skill" "Reference" "guide.md"))
     = [absolutePath Fixtures.guide]
  /\ forall content,
       Fixtures.disk (absolutePath Fixtures.guide) = inl content ->
       result (resolver Fixtures.registry Fixtures.disk
                        (mkArgs "test_skill" "Reference" "guide.md"))
       = inl (mkResolved (absolutePath Fixtures.guide) content
                         (mimeType Fixtures.guide)).
Proof.
  apply (proj1 legacy_prefix_fallback Fixtures.registry Fixtures.disk
               Fixtures.test_skill "test_skill" "Reference" Fixtures.guide).
  - reflexivity.
  - simpl. auto.
  - reflexivity.
  - reflexivity.
Defined.

(** C7, as stated, fails for a references map that also binds the bare key:
    the path as it is given is probed first, so [guide.md] resolves to the
    bare entry and [references/guide.md] to the other one. *)
Lemma bare_key_shadows_prefixed_key :
  map_has "references/guide.md" (references Fixtures.shadow) = true
  /\ result (resolver Fixtures.registry Fixtures.disk
                      (mkArgs "shadow" "reference" "guide.md"))
     = inl (mkResolved "/skills/shadow/guide.md"
                       "# /skills/shadow/guide.md" "text/plain")
  /\ result (resolver Fixtures.registry Fixtures.disk
                      (mkArgs "shadow" "reference" "references/guide.md"))
     = inl (mkResolved "/skills/shadow/references/guide.md"
                       "# /skills/shadow/references/guide.md" "text/markdown").
Proof. repeat split; reflexivity. Qed.

End Legacy.

Module PrefixRetry.
Import Js Resolver ResolverFacts ResolverCases Probing Legacy AsciiText.









End PrefixRetry.

(** ** Alias collisions in the registry controller (C3) *)

Module Aliases.
Import Js Controller.

Lemma bindAll_keeps keys skill m b :
  map_get b m = Some skill -> map_get b (bindAll keys skill m) = Some skill.
Proof.
  unfold bindAll. revert m.
  induction keys as [|k r IH]; intros m H; simpl; [exact H|].
  apply IH. rewrite map_get_set. now destruct (k =? b).
Qed.

Lemma bindAll_binds keys skill m b :
  In b keys -> map_get b (bindAll keys skill m) = Some skill.
Proof.
  unfold bindAll. revert m.
  induction keys as [|k r IH]; intros m; simpl; [tauto|].
  intros [->|H]; [|now apply IH].
  apply (bindAll_keeps r). rewrite map_get_set. now rewrite String.eqb_refl.
Qed.

Lemma map_set_same {V} (k : string) (v : V) (m : list (string * V)) :
  map_get k m = Some v -> map_set k v m = m.
Proof.
  induction m as [|[k' v'] r IH]; simpl; [discriminate|].
  destruct (String.eqb_spec k' k) as [->|_].
  - now intros [= ->].
  - intros H. now rewrite IH.
Qed.

Lemma bindAll_same keys skill m :
  (forall b, In b keys -> map_get b m = Some skill) ->
  bindAll keys skill m = m.
Proof.
  unfold bindAll. induction keys as [|k r IH]; intros H; simpl; [reflexivity|].
  rewrite map_set_same by (apply H; now left).
  apply IH. intros b Hb. apply H. now right.
Qed.

Lemma find_exists {A} (p : A -> bool) (l : list A) (x : A) :
  In x l -> p x = true -> exists y, find p l = Some y.
Proof.
  induction l as [|h t IH]; simpl; [tauto|].
  intros [->|Hin] Hp.
  - rewrite Hp. eauto.
  - destruct (p h); eauto.
Qed.

Lemma find_none_all {A} (p : A -> bool) (l : list A) :
  (forall x, In x l -> p x = false) -> find p l = None.
Proof.
  induction l as [|h t IH]; simpl; intros H; [reflexivity|].
  rewrite (H h) by now left. apply IH. intros x Hx. apply H. now right.
Qed.

Lemma sameObject_refl s : sameObject s s = true.
Proof. apply Nat.eqb_refl. Qed.

Lemma set_ok_binds key skill st st1 :
  set key skill st = inl st1 ->
  (forall b, In b (aliasKeys key skill) ->
             map_get b (aliases st1) = Some skill)
  /\ includes key (ids st1) = true.
Proof.
  unfold set. destruct (find _ _); [discriminate|].
  intros H.
  assert (E : st1 = mkState (bindAll (aliasKeys key skill) skill (aliases st))
                            (if includes key (ids st) then ids st
                             else app (ids st) [key])) by congruence.
  rewrite E. cbn [aliases ids]. clear H E. split.
  - intros b Hb. now apply bindAll_binds.
  - destruct (includes key (ids st)) eqn:Hi; [exact Hi|].
    apply includes_In. apply in_or_app. right. now left.
Qed.

Lemma get_exact key st skill :
  map_get key (aliases st) = Some skill -> get key st = Some skill.
Proof. unfold get. now intros ->. Qed.

(** C3.  Once a skill is registered, registering a distinct skill (another
    object) whose alias set shares a key with it fails with an
    [AliasCollisionError] that carries an alias of the second skill bound to
    a different skill; the state is the one before the call, so every alias
    of the first skill still resolves to the first skill.  Registering the
    first skill again under the same key succeeds and leaves the state as it
    is. *)
Theorem set_collision_and_idempotence :
  forall (st st1 : State) (key1 key2 : string) (skill1 skill2 : SkillObject),
    set key1 skill1 st = inl st1 ->
    address skill1 <> address skill2 ->
    (exists alias, In alias (aliasKeys key1 skill1)
                   /\ In alias (aliasKeys key2 skill2)) ->
    (exists offending bound,
        set key2 skill2 st1 = inr (AliasCollisionError offending)
        /\ In offending (aliasKeys key2 skill2)
        /\ map_get offending (aliases st1) = Some bound
        /\ address bound <> address skill2)
    /\ (forall alias, In alias (aliasKeys key1 skill1) ->
                      get alias st1 = Some skill1)
    /\ set key1 skill1 st1 = inl st1.
Proof.
  intros st st1 k1 k2 s1 s2 Hset Hdiff [a [Ha1 Ha2]].
  destruct (set_ok_binds _ _ _ _ Hset) as [Hbound Hids].
  split; [|split].
  - assert (Hc : collides st1 s2 a = true).
    { unfold collides. rewrite (Hbound a Ha1). unfold sameObject.
      apply negb_true_iff. now apply Nat.eqb_neq. }
    destruct (find_exists _ _ _ Ha2 Hc) as [y Hy].
    destruct (find_some _ _ Hy) as [Hin Hcy].
    unfold collides in Hcy.
    destruct (map_get y (aliases st1)) as [bound|] eqn:Hg; [|discriminate].
    exists y, bound. unfold set. rewrite Hy. repeat split; auto.
    apply negb_true_iff in Hcy. now apply Nat.eqb_neq in Hcy.
  - intros b Hb. apply get_exact. now apply Hbound.
  - unfold set. rewrite find_none_all.
    + rewrite Hids, bindAll_same by exact Hbound. now destruct st1.
    + intros x Hx. unfold collides. rewrite (Hbound x Hx).
      now rewrite sameObject_refl.
Qed.

(** The theorem at the two skills of the alias-collision test. *)
Lemma set_collision_and_idempotence_witness :
  (exists offending bound,
      set "foo-bar" Fixtures.fooBarV2 Fixtures.afterFooBar
      = inr (AliasCollisionError offending)
      /\ In offending (aliasKeys "foo-bar" Fixtures.fooBarV2)
      /\ map_get offending (aliases Fixtures.afterFooBar) = Some bound
      /\ address bound <> address Fixtures.fooBarV2)
  /\ (forall alias, In alias (aliasKeys "foo_bar" Fixtures.fooBar) ->
                    get alias Fixtures.afterFooBar = Some Fixtures.fooBar)
  /\ set "foo_bar" Fixtures.fooBar Fixtures.afterFooBar
     = inl Fixtures.afterFooBar.
Proof.
  apply (set_collision_and_idempotence empty Fixtures.afterFooBar
           "foo_bar" "foo-bar" Fixtures.fooBar Fixtures.fooBarV2).
  - reflexivity.
  - simpl. discriminate.
  - exists "foo-bar". split; simpl; auto.
Defined.

End Aliases.

(** ** Exclusions of the unified resource map (C4) *)

Module Exclusions.
Import Js Indexer.

Lemma Node_nested_ind (P : Node -> Prop) :
  (forall e, P (File e)) ->
  (forall e children, Forall P children -> P (Dir e children)) ->
  (forall e, P (Unlistable e)) ->
  forall n, P n.
Proof.
  intros Hf Hd Hu. fix IH 1. intros [e|e children|e].
  - apply Hf.
  - apply Hd. induction children as [|c r IHr]; constructor; [apply IH | exact IHr].
  - apply Hu.
Qed.

Lemma split_nonempty sep s : split sep s <> [].
Proof.
  destruct s as [|c r]; simpl; [discriminate|].
  destruct (Ascii.eqb c sep); [discriminate|].
  destruct (split sep r); discriminate.
Qed.

Lemma split_app sep a b :
  split sep (a ++ String sep b) = app (split sep a) (split sep b).
Proof.
  induction a as [|c a IH]; simpl.
  - now rewrite Ascii.eqb_refl.
  - destruct (Ascii.eqb c sep); [now rewrite IH|].
    rewrite IH. destruct (split sep a) eqn:Hs; [|reflexivity].
    now destruct (split_nonempty sep a).
Qed.

Lemma contains_cons sub c r :
  contains sub (String c r) = false -> contains sub r = false.
Proof. simpl. intros H. now apply orb_false_iff in H. Qed.

Lemma split_without sep s :
  contains (String sep EmptyString) s = false -> split sep s = [s].
Proof.
  induction s as [|c r IH]; [reflexivity|].
  intros H. pose proof (contains_cons _ _ _ H) as Hr.
  simpl in H. apply orb_false_iff in H. destruct H as [Hc _].
  rewrite andb_true_r in Hc. simpl. rewrite Ascii.eqb_sym, Hc.
  now rewrite (IH Hr).
Qed.

Lemma split_no_separator s :
  contains "/" s = false -> split "/" s = [s].
Proof. apply split_without. Qed.

Lemma dirSegments_join dir e :
  validName e = true ->
  split "/" (joinPath dir e) = app (dirSegments dir) [e]
  /\ dirSegments (joinPath dir e) = app (dirSegments dir) [e].
Proof.
  unfold validName, joinPath, dirSegments. intros H.
  apply andb_true_iff in H. destruct H as [Ht Hc].
  apply negb_true_iff in Hc.
  destruct (truthy dir) eqn:Hd.
  - assert (Hj : truthy (dir ++ "/" ++ e) = true).
    { apply truthy_true_iff. apply truthy_true_iff in Hd.
      destruct dir; [congruence | discriminate]. }
    rewrite Hj. change (dir ++ "/" ++ e) with (dir ++ String "/" e).
    rewrite split_app, (split_no_separator e Hc). auto.
  - rewrite Ht, (split_no_separator e Hc). auto.
Qed.

Lemma walk_kept manifest n :
  forall dir key,
    validTree n = true -> In key (walk manifest dir n) -> Kept dir key.
Proof.
  induction n as [e|e children IH|e] using Node_nested_ind;
    intros dir key Hv Hin; simpl in Hv, Hin.
  - destruct (joinPath dir e =? manifest); [contradiction|].
    destruct Hin as [<-|[]]. exists [e].
    destruct (dirSegments_join dir e Hv) as [Hs _].
    repeat split; auto; [discriminate | simpl; lia].
  - apply andb_true_iff in Hv. destruct Hv as [Hve Hvc].
    destruct (isExcludedDirectory (joinPath dir e) e) eqn:Hx; [contradiction|].
    apply in_flat_map in Hin. destruct Hin as [c [Hc Hin]].
    rewrite Forall_forall in IH. rewrite forallb_forall in Hvc.
    destruct (IH c Hc (joinPath dir e) key (Hvc c Hc) Hin)
      as [segs [Hs [Hne [Hdot Hroot]]]].
    destruct (dirSegments_join dir e Hve) as [_ Hd].
    rewrite Hd, <- app_assoc in Hs. simpl in Hs.
    unfold isExcludedDirectory in Hx. apply orb_false_iff in Hx.
    destruct Hx as [Hxdot Hxroot].
    exists (e :: segs). repeat split; auto; [discriminate| |].
    + destruct segs as [|s0 segs']; [congruence|].
      change (removelast (e :: s0 :: segs'))
        with (e :: removelast (s0 :: segs')).
      cbn [existsb]. now rewrite Hxdot, Hdot.
    + intros Hroot0 _. simpl hd.
      unfold joinPath, dirSegments in *.
      destruct (truthy dir) eqn:Ht.
      * now destruct (split_nonempty "/" dir).
      * exact Hxroot.
  - contradiction.
Qed.

Lemma walk_skips_manifest manifest n :
  forall dir, ~ In manifest (walk manifest dir n).
Proof.
  induction n as [e|e children IH|e] using Node_nested_ind;
    intros dir Hin; simpl in Hin.
  - destruct (String.eqb_spec (joinPath dir e) manifest) as [|Hne];
      [contradiction|]. destruct Hin as [H|[]]. congruence.
  - destruct (isExcludedDirectory _ _); [contradiction|].
    apply in_flat_map in Hin. destruct Hin as [c [Hc Hin]].
    rewrite Forall_forall in IH. exact (IH c Hc _ Hin).
  - contradiction.
Qed.

Lemma kept_not_under_root_tree key tree :
  Kept "" key ->
  includes tree ["USER"; "WORK"; "node_modules"] = true ->
  contains "/" tree = false ->
  startsWith (tree ++ "/") key = false.
Proof.
  intros [segs [Hs [Hne [_ Hroot]]]] Hin Hc.
  destruct (startsWith (tree ++ "/") key) eqn:Hp; [|reflexivity].
  apply startsWith_app in Hp. destruct Hp as [r ->].
  replace ((tree ++ "/") ++ r) with (tree ++ String "/" r) in Hs.
  2:{ clear. induction tree as [|c t IH]; simpl; [reflexivity | now rewrite IH]. }
  rewrite split_app, (split_no_separator tree Hc) in Hs.
  change (dirSegments "") with (@nil string) in Hs, Hroot.
  cbn [app] in Hs. subst segs.
  assert (Hlen : 2 <= List.length (tree :: split "/" r)).
  { destruct (split "/" r) eqn:Hr; [now destruct (split_nonempty "/" r)|].
    simpl. lia. }
  specialize (Hroot eq_refl Hlen). cbn [hd] in Hroot. congruence.
Qed.

Lemma buildMap_keys detectMimeType root paths k e :
  map_get k (buildMap detectMimeType root paths) = Some e -> In k paths.
Proof.
  unfold buildMap.
  assert (H : forall acc,
             map_get k (fold_left
                          (fun m p => map_set p (mkEntry (root ++ "/" ++ p)
                                                         (detectMimeType p)) m)
                          paths acc) = Some e ->
             In k paths \/ map_get k acc = Some e).
  { induction paths as [|p r IH]; intros acc Hg; simpl in Hg; [now right|].
    destruct (IH _ Hg) as [Hin|Hacc]; [left; now right|].
    rewrite map_get_set in Hacc.
    destruct (String.eqb_spec p k) as [->|_]; [left; now left | now right]. }
  intros Hg. destruct (H [] Hg) as [Hin|Hnil]; [exact Hin | discriminate].
Qed.

(** C4.  The unified map of a bundle never has the manifest as a key; and,
    entry names being what a filesystem allows (not empty, no separator), it
    has no key under [USER/], [WORK/] or [node_modules/] and no key under a
    directory whose name starts with a dot, whatever files lie there. *)
Theorem unified_map_exclusions :
  forall (detectMimeType : string -> string) (root : string)
         (bundle : list Node) (key : string),
    map_has key (unifiedMap detectMimeType root "SKILL.md" bundle) = true ->
    key <> "SKILL.md"
    /\ (forallb validTree bundle = true ->
        startsWith "USER/" key = false
        /\ startsWith "WORK/" key = false
        /\ startsWith "node_modules/" key = false
        /\ underDotDirectory key = false).
Proof.
  intros detect root bundle key Hhas.
  unfold map_has in Hhas.
  destruct (map_get key (unifiedMap detect root "SKILL.md" bundle))
    as [e|] eqn:Hg; [clear Hhas | discriminate].
  apply buildMap_keys in Hg. apply in_flat_map in Hg.
  destruct Hg as [n [Hn Hin]]. split.
  - intros ->. exact (walk_skips_manifest _ _ _ Hin).
  - intros Hv. rewrite forallb_forall in Hv.
    pose proof (walk_kept _ _ _ _ (Hv n Hn) Hin) as Hk.
    repeat split.
    + now apply (kept_not_under_root_tree key "USER").
    + now apply (kept_not_under_root_tree key "WORK").
    + now apply (kept_not_under_root_tree key "node_modules").
    + destruct Hk as [segs [Hs [_ [Hdot _]]]].
      unfold underDotDirectory, directoriesOf. now rewrite Hs.
Qed.

(** The theorem at the [PAI] bundle, which has files under every excluded
    tree. *)
Lemma unified_map_exclusions_witness :
  "Workflows/Onboarding.md" <> "SKILL.md"
  /\ startsWith "USER/" "Workflows/Onboarding.md" = false
  /\ startsWith "WORK/" "Workflows/Onboarding.md" = false
  /\ startsWith "node_modules/" "Workflows/Onboarding.md" = false
  /\ underDotDirectory "Workflows/Onboarding.md" = false.
Proof.
  destruct (unified_map_exclusions Fixtures.mimeByExtension "/skills/PAI"
              Fixtures.paiBundle "Workflows/Onboarding.md" eq_refl)
    as [Hm Hx].
  split; [exact Hm | exact (Hx eq_refl)].
Defined.

(** The keys of the unified map of the [PAI] bundle. *)
Example pai_bundle_unified_keys :
  map fst (unifiedMap Fixtures.mimeByExtension "/skills/PAI" "SKILL.md"
                      Fixtures.paiBundle)
  = ["CoreStack.md"; "Workflows/Onboarding.md"; "Tools/Inference.ts";
     "SYSTEM/PAISYSTEMARCHITECTURE.md"; "Components/10-intro.md"].
Proof. reflexivity. Qed.

End Exclusions.

(** ** Stripping the leading noise of a manifest (C6) *)

Module Banner.
Import Js Manifest.

Lemma length_append (s t : string) :
  String.length (s ++ t) = String.length s + String.length t.
Proof. induction s as [|c s IH]; simpl; [reflexivity | now rewrite IH]. Qed.

Lemma append_assoc (a b c : string) : (a ++ b) ++ c = a ++ (b ++ c).
Proof. induction a as [|x a IH]; simpl; [reflexivity | now rewrite IH]. Qed.

Lemma allBlank_cons c r :
  allBlank (String c r) = true -> isBlank c = true /\ allBlank r = true.
Proof.
  unfold allBlank. simpl. destruct (isBlank c); [auto | discriminate].
Qed.

Lemma trimStart_blank ws s : allBlank ws = true -> trimStart (ws ++ s) = trimStart s.
Proof.
  induction ws as [|c r IH]; intros H; [reflexivity|].
  apply allBlank_cons in H. destruct H as [Hc Hr].
  simpl. rewrite Hc. now apply IH.
Qed.

Lemma trimStart_idem s : trimStart (trimStart s) = trimStart s.
Proof.
  induction s as [|c r IH]; [reflexivity|]. simpl.
  destruct (isBlank c) eqn:Hc; [exact IH|]. simpl. now rewrite Hc.
Qed.

Lemma stripOne_trimStart s : stripOne (trimStart s) = stripOne s.
Proof. unfold stripOne. now rewrite trimStart_idem. Qed.

(** A terminator of three characters whose last differs from the first two
    cannot begin inside a body it does not occur in. *)
Lemma no_early_terminator (x y z : ascii) (body rest : string) :
  x <> z -> y <> z -> body <> "" ->
  startsWith (String x (String y (String z ""))) body = false ->
  startsWith (String x (String y (String z "")))
             (body ++ String x (String y (String z rest))) = false.
Proof.
  intros Hxz Hyz Hne Hs.
  destruct body as [|c1 [|c2 [|c3 b]]]; [congruence| | |]; simpl in *.
  - destruct (Ascii.eqb_spec x c1); [|reflexivity].
    destruct (Ascii.eqb_spec y x); [|reflexivity].
    destruct (Ascii.eqb_spec z y); [congruence | reflexivity].
  - destruct (Ascii.eqb_spec x c1); [|reflexivity].
    destruct (Ascii.eqb_spec y c2); [|reflexivity].
    destruct (Ascii.eqb_spec z x); [congruence | reflexivity].
  - destruct (Ascii.eqb x c1); [|reflexivity].
    destruct (Ascii.eqb y c2); [|reflexivity].
    destruct (Ascii.eqb z c3); [discriminate | reflexivity].
Qed.

Lemma afterClose_body body rest :
  contains "-->" body = false -> afterClose (body ++ "-->" ++ rest) = Some rest.
Proof.
  induction body as [|c b IH]; intros H; [reflexivity|].
  assert (Hhead : startsWith "-->" (String c b) = false).
  { simpl contains in H. now apply orb_false_iff in H. }
  assert (Htail : contains "-->" b = false).
  { simpl contains in H. now apply orb_false_iff in H. }
  change (afterClose (String c b ++ "-->" ++ rest))
    with (if startsWith "-->" (String c b ++ "-->" ++ rest)
          then Some (drop 3 (String c b ++ "-->" ++ rest))
          else afterClose (b ++ "-->" ++ rest)).
  change (String c b ++ "-->" ++ rest)
    with (String c b ++ String "-" (String "-" (String ">" rest))).
  rewrite (no_early_terminator "-" "-" ">" (String c b) rest);
    try discriminate; [|exact Hhead].
  now apply IH.
Qed.

Lemma stripOne_block ws1 body tail :
  allBlank ws1 = true -> contains "-->" body = false ->
  stripOne (ws1 ++ "<!--" ++ body ++ "-->" ++ tail) = Some (trimStart tail).
Proof.
  intros Hws Hbody. unfold stripOne. rewrite trimStart_blank by exact Hws.
  change (trimStart ("<!--" ++ body ++ "-->" ++ tail))
    with ("<!--" ++ body ++ "-->" ++ tail).
  change (startsWith "<!--" ("<!--" ++ body ++ "-->" ++ tail)) with true.
  change (drop 4 ("<!--" ++ body ++ "-->" ++ tail)) with (body ++ "-->" ++ tail).
  cbv iota. now rewrite afterClose_body.
Qed.

Lemma noiseFree_parts c :
  noiseFree c = true ->
  startsWith BOM c = false /\ startsWith "<!--" c = false /\ trimStart c = c.
Proof.
  unfold noiseFree. intros H.
  apply andb_true_iff in H. destruct H as [H Hc].
  apply andb_true_iff in H. destruct H as [Hb Ho].
  apply negb_true_iff in Hb. apply negb_true_iff in Ho.
  repeat split; auto.
  destruct c as [|ch r]; [reflexivity|]. simpl.
  apply negb_true_iff in Hc. now rewrite Hc.
Qed.

Lemma stripOne_none s :
  startsWith "<!--" (trimStart s) = false -> stripOne s = None.
Proof. unfold stripOne. now intros ->. Qed.

Lemma stripBlocks_fixed fuel s : stripOne s = None -> stripBlocks fuel s = s.
Proof. destruct fuel; simpl; [reflexivity | now intros ->]. Qed.

Lemma stripBlocks_noiseFree fuel c : noiseFree c = true -> stripBlocks fuel c = c.
Proof.
  intros H. apply stripBlocks_fixed, stripOne_none.
  destruct (noiseFree_parts c H) as [_ [Ho Ht]]. now rewrite Ht.
Qed.

Lemma stripBlocks_banner n :
  CommentBanner n ->
  forall c fuel x,
    noiseFree c = true ->
    String.length (n ++ c) <= fuel ->
    stripOne x = stripOne (n ++ c) ->
    stripBlocks fuel x = c.
Proof.
  induction 1 as [ws1 body ws2 Hw1 Hb Hw2 | ws1 body ws2 rest Hw1 Hb Hw2 Hrest IH];
    intros c fuel x Hc Hlen Hx.
  - repeat rewrite append_assoc in Hx, Hlen.
    rewrite stripOne_block in Hx by assumption.
    rewrite trimStart_blank in Hx by assumption.
    destruct (noiseFree_parts c Hc) as [_ [_ Ht]]. rewrite Ht in Hx.
    repeat rewrite length_append in Hlen. simpl in Hlen.
    destruct fuel as [|f]; [lia|]. simpl. rewrite Hx.
    now apply stripBlocks_noiseFree.
  - repeat rewrite append_assoc in Hx, Hlen.
    rewrite stripOne_block in Hx by assumption.
    rewrite trimStart_blank in Hx by assumption.
    repeat rewrite length_append in Hlen. simpl in Hlen.
    destruct fuel as [|f]; [lia|]. simpl. rewrite Hx.
    apply IH; [exact Hc | rewrite length_append; lia | apply stripOne_trimStart].
Qed.

Lemma banner_head n :
  CommentBanner n ->
  exists ch r, n = String ch r /\ Ascii.eqb (ascii_of_nat 239) ch = false.
Proof.
  assert (H : forall ws tail, allBlank ws = true ->
              exists ch r, ws ++ "<!--" ++ tail = String ch r
                           /\ Ascii.eqb (ascii_of_nat 239) ch = false).
  { intros [|ch r] tail Hw.
    - simpl. eexists _, _. split; [reflexivity | reflexivity].
    - apply allBlank_cons in Hw. destruct Hw as [Hch _].
      exists ch, (r ++ "<!--" ++ tail). split; [reflexivity|].
      destruct (Ascii.eqb_spec (ascii_of_nat 239) ch) as [<-|]; [|reflexivity].
      discriminate. }
  intros [ws1 body ws2 Hw1 _ _ | ws1 body ws2 rest Hw1 _ _ _]; now apply H.
Qed.

Lemma stripBom_banner n c : CommentBanner n -> stripBom (n ++ c) = n ++ c.
Proof.
  intros Hn. destruct (banner_head n Hn) as [ch [r [-> Hch]]].
  unfold stripBom.
  change (startsWith BOM (String ch r ++ c))
    with (Ascii.eqb (ascii_of_nat 239) ch
          && startsWith (String (ascii_of_nat 187)
                           (String (ascii_of_nat 191) EmptyString)) (r ++ c)).
  now rewrite Hch.
Qed.

Lemma strip_noise noise clean :
  LeadingNoise noise -> noiseFree clean = true ->
  stripLeadingHtmlCommentBlocks (noise ++ clean) = clean.
Proof.
  intros Hn Hc. unfold stripLeadingHtmlCommentBlocks.
  destruct Hn as [|n Hn|n Hn].
  - change (stripBom (BOM ++ clean)) with clean.
    now apply stripBlocks_noiseFree.
  - rewrite stripBom_banner by exact Hn.
    now apply (stripBlocks_banner n Hn clean).
  - rewrite append_assoc. change (stripBom (BOM ++ n ++ clean)) with (n ++ clean).
    now apply (stripBlocks_banner n Hn clean).
Qed.

Lemma strip_unchanged text :
  leadsWithoutComment text = true -> stripLeadingHtmlCommentBlocks text = text.
Proof.
  unfold leadsWithoutComment, stripLeadingHtmlCommentBlocks, stripBom.
  intros H. apply andb_true_iff in H. destruct H as [Hb Ho].
  apply negb_true_iff in Hb. apply negb_true_iff in Ho. rewrite Hb.
  now apply stripBlocks_fixed, stripOne_none.
Qed.

Lemma trimStart_length s : String.length (trimStart s) <= String.length s.
Proof.
  induction s as [|c r IH]; simpl; [lia|].
  destruct (isBlank c); simpl; lia.
Qed.

Lemma afterClose_length x r :
  afterClose x = Some r -> String.length r + 3 <= String.length x.
Proof.
  induction x as [|c x IH].
  - simpl. discriminate.
  - change (afterClose (String c x))
      with (if startsWith "-->" (String c x) then Some (drop 3 (String c x))
            else afterClose x).
    destruct (startsWith "-->" (String c x)) eqn:Hs.
    + apply startsWith_app in Hs. destruct Hs as [t Ht].
      rewrite Ht. intros [= <-]. simpl. lia.
    + intros H. apply IH in H. simpl. lia.
Qed.

Lemma stripOne_shrinks s s' :
  stripOne s = Some s' -> String.length s' < String.length s.
Proof.
  unfold stripOne. destruct (startsWith "<!--" (trimStart s)) eqn:Hs;
    [|discriminate].
  apply startsWith_app in Hs. destruct Hs as [t Ht].
  rewrite Ht. change (drop 4 ("<!--" ++ t)) with t.
  destruct (afterClose t) as [rest|] eqn:Hc; [|discriminate].
  intros [= <-]. apply afterClose_length in Hc.
  pose proof (trimStart_length rest). pose proof (trimStart_length s) as Hl.
  rewrite Ht in Hl. simpl in Hl. lia.
Qed.

(** The fuel never runs out: what stripping hands back starts with neither
    a blank-led nor a bare complete comment block. *)
Lemma stripBlocks_settles fuel :
  forall s, String.length s <= fuel -> stripOne (stripBlocks fuel s) = None.
Proof.
  induction fuel as [|f IH]; intros s Hlen.
  - destruct s; [reflexivity | simpl in Hlen; lia].
  - simpl. destruct (stripOne s) as [s'|] eqn:Hs; [|exact Hs].
    apply IH. apply stripOne_shrinks in Hs. lia.
Qed.

Lemma strip_settles content :
  stripOne (stripLeadingHtmlCommentBlocks content) = None.
Proof. unfold stripLeadingHtmlCommentBlocks. now apply stripBlocks_settles. Qed.

(** C6.  For a noise-free manifest text put behind leading noise (a
    byte-order mark, comment blocks with only blank lines around them, or
    both), stripping hands back exactly the noise-free text, so that parsing
    the noisy text gives what parsing the noise-free text gives.  A text
    without a byte-order mark whose first content is not a comment is handed
    back unchanged: a comment block behind prose is not stripped. *)
Theorem leading_noise_stripped :
  forall (parseManifest : string -> Skill + string),
    (forall noise clean,
        LeadingNoise noise -> noiseFree clean = true ->
        stripLeadingHtmlCommentBlocks (noise ++ clean) = clean
        /\ stripLeadingHtmlCommentBlocks clean = clean
        /\ parseSkill parseManifest (noise ++ clean)
           = parseSkill parseManifest clean)
    /\ (forall text,
           leadsWithoutComment text = true ->
           stripLeadingHtmlCommentBlocks text = text).
Proof.
  intros parse. split.
  - intros noise clean Hn Hc.
    assert (H1 := strip_noise noise clean Hn Hc).
    assert (H2 : stripLeadingHtmlCommentBlocks clean = clean).
    { apply strip_unchanged. unfold leadsWithoutComment.
      destruct (noiseFree_parts clean Hc) as [Hb [Ho Ht]].
      now rewrite Hb, Ht, Ho. }
    unfold parseSkill. now rewrite H1, H2.
  - apply strip_unchanged.
Qed.

(** The theorem at the two-banner manifest of the test suite, behind a
    byte-order mark. *)
Lemma leading_noise_stripped_witness :
  stripLeadingHtmlCommentBlocks
    ((BOM ++ Fixtures.twoBanners) ++ Fixtures.demoManifest)
  = Fixtures.demoManifest
  /\ stripLeadingHtmlCommentBlocks Fixtures.demoManifest
     = Fixtures.demoManifest
  /\ parseSkill Fixtures.demoParser
       ((BOM ++ Fixtures.twoBanners) ++ Fixtures.demoManifest)
     = parseSkill Fixtures.demoParser Fixtures.demoManifest.
Proof.
  apply (proj1 (leading_noise_stripped Fixtures.demoParser)).
  - apply noise_bom_banner.
    apply (banner_more "" " one " (Fixtures.newline ++ Fixtures.newline)
                       ("<!-- two -->" ++ Fixtures.newline));
      try reflexivity.
    apply (banner_one "" " two " Fixtures.newline); reflexivity.
  - reflexivity.
Defined.

(** The four tests of [stripLeadingHtmlCommentBlocks]. *)
Example strip_tests :
  stripLeadingHtmlCommentBlocks
    (Fixtures.generatedBanner ++ Fixtures.demoManifest)
  = Fixtures.demoManifest
  /\ stripLeadingHtmlCommentBlocks (Fixtures.twoBanners ++ Fixtures.demoManifest)
     = Fixtures.demoManifest
  /\ stripLeadingHtmlCommentBlocks (BOM ++ Fixtures.demoManifest)
     = Fixtures.demoManifest
  /\ stripLeadingHtmlCommentBlocks
       ("# Intro" ++ Fixtures.newline ++ Fixtures.demoManifest)
     = "# Intro" ++ Fixtures.newline ++ Fixtures.demoManifest.
Proof. repeat split; vm_compute; reflexivity. Qed.

End Banner.

(** ** Search: include and exclude terms (C10) *)

Module Ranking.
Import Js Search.

Lemma insertRank_perm r l : Permutation (insertRank r l) (r :: l).
Proof.
  induction l as [|h t IH]; simpl; [reflexivity|].
  destruct (Nat.leb (totalScore h) (totalScore r)); [reflexivity|].
  rewrite IH. apply perm_swap.
Qed.

Lemma sortRanks_perm l : Permutation (sortRanks l) l.
Proof.
  induction l as [|h t IH]; simpl; [reflexivity|].
  rewrite insertRank_perm. now apply perm_skip.
Qed.

Lemma rank_skill nameWeight descWeight q (l : list Skill) :
  map skill (map (rank nameWeight descWeight q) l) = l.
Proof.
  induction l as [|s r IH]; simpl; [reflexivity | now rewrite IH].
Qed.

Lemma matches_perm nameWeight descWeight renderFeedback skills q :
  Permutation
    (matches (search nameWeight descWeight renderFeedback skills q))
    (filter (fun s => matchesAllIncludes (parseQuery q) s
                      && negb (isExcluded (parseQuery q) s)) skills).
Proof.
  unfold search. cbn [matches].
  rewrite <- (rank_skill nameWeight descWeight (parseQuery q)
                (filter _ skills)) at 2.
  apply Permutation_map, sortRanks_perm.
Qed.

Lemma isExcluded_false q s :
  isExcluded q s = false <->
  (forall t, In t (exclude q) -> matchesAny t s = false).
Proof.
  unfold isExcluded. split.
  - intros H t Ht. destruct (matchesAny t s) eqn:Hm; [|reflexivity].
    assert (existsb (fun t => matchesAny t s) (exclude q) = true)
      by (apply existsb_exists; eauto). congruence.
  - intros H. destruct (existsb _ _) eqn:He; [|reflexivity].
    apply existsb_exists in He. destruct He as [t [Ht Hm]].
    rewrite (H t Ht) in Hm. discriminate.
Qed.

Lemma matches_In nameWeight descWeight renderFeedback skills q s :
  In s (matches (search nameWeight descWeight renderFeedback skills q)) <->
  In s skills
  /\ (forall t, In t (include (parseQuery q)) -> matchesAny t s = true)
  /\ (forall t, In t (exclude (parseQuery q)) -> matchesAny t s = false).
Proof.
  split.
  - intros H.
    apply (Permutation_in _ (matches_perm _ _ _ _ _)) in H.
    apply filter_In in H. destruct H as [Hin Hp].
    apply andb_true_iff in Hp. destruct Hp as [Hi He].
    apply negb_true_iff in He. unfold matchesAllIncludes in Hi.
    rewrite forallb_forall in Hi. rewrite isExcluded_false in He. auto.
  - intros [Hin [Hi He]].
    apply (Permutation_in _ (Permutation_sym (matches_perm _ _ _ _ _))).
    apply filter_In. split; [exact Hin|].
    apply andb_true_iff. split.
    + unfold matchesAllIncludes. now apply forallb_forall.
    + apply negb_true_iff. now apply isExcluded_false.
Qed.

(** C10.  Over any registered skills and whatever the weights, a skill is
    among the matches exactly when it is registered, every include term is a
    case-insensitive substring of its name, tool name or description, and no
    exclude term is one of any of them; the matches are the registered skills
    that pass, each as often as it is registered.  For the query
    [auth -oauth] these are the skills with [auth] in one of the three fields
    and [oauth] in none; with no include term they are the skills no exclude
    term matches. *)
Theorem search_include_exclude :
  forall (nameWeight descWeight : nat)
         (renderFeedback : ParsedSkillQuery -> nat -> nat -> string)
         (skills : list Skill),
    (forall q s,
        In s (matches (search nameWeight descWeight renderFeedback skills q))
        <-> In s skills
            /\ (forall t, In t (include (parseQuery q)) ->
                          matchesAny t s = true)
            /\ (forall t, In t (exclude (parseQuery q)) ->
                          matchesAny t s = false))
    /\ (forall q,
           Permutation
             (matches (search nameWeight descWeight renderFeedback skills q))
             (filter (fun s => matchesAllIncludes (parseQuery q) s
                               && negb (isExcluded (parseQuery q) s)) skills))
    /\ (forall s,
           In s (matches (search nameWeight descWeight renderFeedback skills
                                 (QString "auth -oauth")))
           <-> In s skills
               /\ (termIn "auth" (name s) = true
                   \/ termIn "auth" (toolName s) = true
                   \/ termIn "auth" (description s) = true)
               /\ termIn "oauth" (name s) = false
               /\ termIn "oauth" (toolName s) = false
               /\ termIn "oauth" (description s) = false)
    /\ (forall q s,
           include (parseQuery q) = [] ->
           (In s (matches (search nameWeight descWeight renderFeedback skills q))
            <-> In s skills /\ isExcluded (parseQuery q) s = false)).
Proof.
  intros nw dw rf skills. split; [|split; [|split]].
  - intros q s. apply matches_In.
  - intros q. apply matches_perm.
  - intros s. rewrite matches_In.
    change (include (parseQuery (QString "auth -oauth"))) with ["auth"].
    change (exclude (parseQuery (QString "auth -oauth"))) with ["oauth"].
    unfold matchesAny, matchesName, matchesDescription.
    split.
    + intros [Hin [Hi He]]. split; [exact Hin|].
      specialize (Hi "auth" (or_introl eq_refl)).
      specialize (He "oauth" (or_introl eq_refl)).
      apply orb_true_iff in Hi. rewrite orb_true_iff in Hi.
      apply orb_false_iff in He. rewrite orb_false_iff in He. tauto.
    + intros [Hin [Hi [He1 [He2 He3]]]]. split; [exact Hin|]. split.
      * intros t [<-|[]]. rewrite !orb_true_iff. tauto.
      * intros t [<-|[]]. now rewrite He1, He2, He3.
  - intros q s Hnil. rewrite matches_In, Hnil, isExcluded_false.
    split; [tauto|]. intros [Hin He]. split; [exact Hin|].
    split; [intros t []|exact He].
Qed.

(** The theorem at the four skills of the search scenarios: the skill with
    the term in its description only is a match. *)
Lemma search_include_exclude_witness :
  In Fixtures.jwtSkill
     (matches (search 3 1 Fixtures.plainFeedback Fixtures.searchableSkills
                      (QString "auth -oauth"))).
Proof.
  apply (proj1 (proj2 (proj2 (search_include_exclude
                  3 1 Fixtures.plainFeedback Fixtures.searchableSkills)))
               Fixtures.jwtSkill).
  split; [simpl; auto|].
  split; [right; right; reflexivity|].
  repeat split; reflexivity.
Defined.

(** The scenario run: the skill matching both terms is left out, a name
    match goes before a description match, and with no include term every
    skill that is not excluded matches, in registration order. *)
Example search_scenarios :
  map name (matches (search 3 1 Fixtures.plainFeedback Fixtures.searchableSkills
                            (QString "auth -oauth")))
  = ["auth-basics"; "jwt-patterns"]
  /\ map name (matches (search 3 1 Fixtures.plainFeedback
                               Fixtures.searchableSkills (QString "-oauth")))
     = ["jwt-patterns"; "git-workflows"; "auth-basics"]
  /\ totalMatches (search 3 1 Fixtures.plainFeedback Fixtures.searchableSkills
                          (QString "auth -oauth")) = 3.
Proof. repeat split; vm_compute; reflexivity. Qed.

End Ranking.

(* ===================================================================== *)
(** * Further properties of the resolver *)
(* ===================================================================== *)

(** ** Normalization *)

Module Normalization.
Import Js Resolver Shapes.

Lemma contains_char_cons a c r :
  contains (String a EmptyString) (String c r)
  = Ascii.eqb a c || contains (String a EmptyString) r.
Proof. simpl. now rewrite andb_true_r. Qed.

Lemma startsWith_char a c r :
  startsWith (String a EmptyString) (String c r) = Ascii.eqb a c.
Proof. simpl. now rewrite andb_true_r. Qed.

Lemma replaceAll_idem a b s : replaceAll a b (replaceAll a b s) = replaceAll a b s.
Proof.
  induction s as [|c r IH]; simpl; [reflexivity|]. rewrite IH.
  destruct (Ascii.eqb c a) eqn:Hc; [|now rewrite Hc].
  now destruct (Ascii.eqb b a).
Qed.

Lemma replaceAll_removes a b s :
  a <> b -> contains (String a EmptyString) (replaceAll a b s) = false.
Proof.
  intros Hab. induction s as [|c r IH]; [reflexivity|].
  cbn [replaceAll]. rewrite contains_char_cons, IH, orb_false_r.
  destruct (Ascii.eqb_spec c a) as [->|Hc].
  - now apply Ascii.eqb_neq.
  - apply Ascii.eqb_neq. congruence.
Qed.

Lemma replaceAll_without a b s :
  contains (String a EmptyString) s = false -> replaceAll a b s = s.
Proof.
  induction s as [|c r IH]; [reflexivity|].
  rewrite contains_char_cons. intros H. apply orb_false_iff in H.
  destruct H as [Hc Hr]. cbn [replaceAll].
  rewrite Ascii.eqb_sym, Hc. now rewrite IH.
Qed.

Lemma replaceAll_app a b s t :
  replaceAll a b (s ++ t) = replaceAll a b s ++ replaceAll a b t.
Proof. induction s as [|c r IH]; simpl; [reflexivity | now rewrite IH]. Qed.

Lemma stripLeading_without x a s :
  contains (String x EmptyString) s = false ->
  contains (String x EmptyString) (stripLeading a s) = false.
Proof.
  induction s as [|c r IH]; [reflexivity|]. intros H. cbn [stripLeading].
  destruct (Ascii.eqb c a); [|exact H].
  rewrite contains_char_cons in H. apply orb_false_iff in H. now apply IH.
Qed.

Lemma stripTrailing_cons a c r :
  stripTrailing a (String c r)
  = match stripTrailing a r with
    | EmptyString => if Ascii.eqb c a then EmptyString else String c EmptyString
    | String d r' => String c (String d r')
    end.
Proof. reflexivity. Qed.

Lemma stripTrailing_without x a s :
  contains (String x EmptyString) s = false ->
  contains (String x EmptyString) (stripTrailing a s) = false.
Proof.
  induction s as [|c r IH]; [reflexivity|]. intros H.
  rewrite contains_char_cons in H. apply orb_false_iff in H.
  destruct H as [Hc Hr]. specialize (IH Hr). rewrite stripTrailing_cons.
  destruct (stripTrailing a r) as [|d r'].
  - destruct (Ascii.eqb c a); [reflexivity|].
    rewrite contains_char_cons, Hc. reflexivity.
  - rewrite contains_char_cons, Hc. exact IH.
Qed.

Lemma stripLeading_head a s :
  startsWith (String a EmptyString) (stripLeading a s) = false.
Proof.
  induction s as [|c r IH]; [reflexivity|]. cbn [stripLeading].
  destruct (Ascii.eqb c a) eqn:Hc; [exact IH|].
  rewrite startsWith_char, Ascii.eqb_sym. exact Hc.
Qed.

Lemma stripLeading_fixed a s :
  startsWith (String a EmptyString) s = false -> stripLeading a s = s.
Proof.
  destruct s as [|c r]; [reflexivity|].
  rewrite startsWith_char, Ascii.eqb_sym. cbn [stripLeading]. now intros ->.
Qed.

Lemma stripTrailing_head a s :
  startsWith (String a EmptyString) s = false ->
  startsWith (String a EmptyString) (stripTrailing a s) = false.
Proof.
  destruct s as [|c r]; [reflexivity|]. intros H.
  rewrite stripTrailing_cons.
  destruct (stripTrailing a r); [destruct (Ascii.eqb c a); [reflexivity|] |];
    rewrite startsWith_char in *; exact H.
Qed.

Lemma stripTrailing_idem a s :
  stripTrailing a (stripTrailing a s) = stripTrailing a s.
Proof.
  induction s as [|c r IH]; [reflexivity|]. rewrite stripTrailing_cons.
  destruct (stripTrailing a r) as [|d r'] eqn:Hr.
  - destruct (Ascii.eqb c a) eqn:Hc; [reflexivity|].
    rewrite stripTrailing_cons. cbn [stripTrailing]. now rewrite Hc.
  - rewrite stripTrailing_cons, IH. reflexivity.
Qed.

Lemma stripTrailing_last a s : lastChar (stripTrailing a s) <> Some a.
Proof.
  induction s as [|c r IH]; [discriminate|]. rewrite stripTrailing_cons.
  destruct (stripTrailing a r) as [|d r'] eqn:Hr.
  - destruct (Ascii.eqb_spec c a); [discriminate|]. simpl. congruence.
  - exact IH.
Qed.

Lemma toPosixPath_idem v : toPosixPath (toPosixPath v) = toPosixPath v.
Proof. apply replaceAll_idem. Qed.

Lemma normalize_no_backslash v :
  contains "\" (normalizeResourcePath v) = false.
Proof.
  unfold normalizeResourcePath, toPosixPath.
  apply stripTrailing_without, stripLeading_without, replaceAll_removes.
  discriminate.
Qed.

Lemma normalize_no_leading_slash v :
  startsWith "/" (normalizeResourcePath v) = false.
Proof. apply stripTrailing_head, stripLeading_head. Qed.

Lemma normalize_idem v :
  normalizeResourcePath (normalizeResourcePath v) = normalizeResourcePath v.
Proof.
  unfold normalizeResourcePath at 1. unfold toPosixPath.
  rewrite replaceAll_without by apply normalize_no_backslash.
  rewrite stripLeading_fixed by apply normalize_no_leading_slash.
  unfold normalizeResourcePath. apply stripTrailing_idem.
Qed.

Lemma normalize_toPosixPath v :
  normalizeResourcePath (toPosixPath v) = normalizeResourcePath v.
Proof. unfold normalizeResourcePath. now rewrite toPosixPath_idem. Qed.

(** X1.  Normalizing a path twice is normalizing it once, and a normalized
    path has no backslash, does not begin with a slash and does not end with
    one. *)
Theorem normalize_idempotent_and_shaped :
  forall value : string,
    normalizeResourcePath (normalizeResourcePath value)
    = normalizeResourcePath value
    /\ contains "\" (normalizeResourcePath value) = false
    /\ startsWith "/" (normalizeResourcePath value) = false
    /\ lastChar (normalizeResourcePath value) <> Some "/"%char.
Proof.
  intros v. split; [apply normalize_idem|].
  split; [apply normalize_no_backslash|].
  split; [apply normalize_no_leading_slash|].
  apply stripTrailing_last.
Qed.

(** The theorem at a path with both separators, doubled and trailing. *)
Lemma normalize_idempotent_and_shaped_witness :
  normalizeResourcePath (normalizeResourcePath "\\Workflows//a\b//")
  = normalizeResourcePath "\\Workflows//a\b//"
  /\ contains "\" (normalizeResourcePath "\\Workflows//a\b//") = false
  /\ startsWith "/" (normalizeResourcePath "\\Workflows//a\b//") = false
  /\ lastChar (normalizeResourcePath "\\Workflows//a\b//") <> Some "/"%char.
Proof. exact (normalize_idempotent_and_shaped "\\Workflows//a\b//"). Defined.

End Normalization.

(** ** The gate sees every [..] segment, under either separator *)

Module Traversal.
Import Js Resolver Shapes Normalization ResolverCases.

Lemma split_cons a c r :
  split a (String c r)
  = if Ascii.eqb c a then EmptyString :: split a r
    else match split a r with
         | [] => [String c EmptyString]
         | h :: t => String c h :: t
         end.
Proof. reflexivity. Qed.

Lemma segments_stripLeading a s :
  filter truthy (split a (stripLeading a s)) = filter truthy (split a s).
Proof.
  induction s as [|c r IH]; [reflexivity|]. cbn [stripLeading].
  destruct (Ascii.eqb c a) eqn:Hc; [|reflexivity].
  rewrite split_cons, Hc. exact IH.
Qed.

(** Stripping trailing separators only drops empty segments at the end. *)
Lemma split_stripTrailing a s :
  (stripTrailing a s = "" /\ filter truthy (split a s) = [])
  \/ (exists t, split a s = app (split a (stripTrailing a s)) t
                /\ filter truthy t = []).
Proof.
  induction s as [|c r IH]; [left; split; reflexivity|].
  rewrite stripTrailing_cons, split_cons.
  destruct (stripTrailing a r) as [|d r'] eqn:Hr.
  - destruct IH as [[_ Hf]|[t [Ht Hf]]].
    + destruct (Ascii.eqb c a) eqn:Hc.
      * left. split; [reflexivity | exact Hf].
      * right. destruct (split a r) as [|h t] eqn:Hs;
          [now destruct (Exclusions.split_nonempty a r)|].
        cbn [filter] in Hf. destruct (truthy h) eqn:Hh; [discriminate|].
        apply truthy_false_iff in Hh. subst h.
        exists t. split; [|exact Hf].
        rewrite split_cons, Hc. reflexivity.
    + destruct (Ascii.eqb c a) eqn:Hc.
      * left. split; [reflexivity|]. rewrite Ht. exact Hf.
      * right. rewrite Ht. exists t. split; [|exact Hf].
        rewrite split_cons, Hc. reflexivity.
  - destruct IH as [[He _]|[t [Ht Hf]]]; [discriminate|].
    right. exists t. split; [|exact Hf].
    rewrite (split_cons a c (String d r')).
    destruct (Ascii.eqb c a); rewrite Ht.
    + reflexivity.
    + destruct (split a (String d r')) as [|h' t'] eqn:Hs;
        [now destruct (Exclusions.split_nonempty a (String d r'))|].
      reflexivity.
Qed.

Lemma segments_stripTrailing a s :
  filter truthy (split a (stripTrailing a s)) = filter truthy (split a s).
Proof.
  destruct (split_stripTrailing a s) as [[He Hf]|[t [Ht Hf]]].
  - now rewrite He, Hf.
  - now rewrite Ht, filter_app, Hf, app_nil_r.
Qed.

Lemma segments_normalize v :
  segments (normalizeResourcePath v) = segments (toPosixPath v).
Proof.
  unfold segments, normalizeResourcePath.
  now rewrite segments_stripTrailing, segments_stripLeading.
Qed.

Lemma dotdot_unsafe value :
  In ".." (split "/" (toPosixPath value)) -> isUnsafeResourcePath value = true.
Proof.
  intros H. unfold isUnsafeResourcePath.
  destruct (negb (truthy (normalizeResourcePath value))); [reflexivity|].
  destruct (startsWith "/" value || hasDrivePrefix value); [reflexivity|].
  apply includes_In. rewrite segments_normalize. unfold segments.
  apply filter_In. split; [exact H | reflexivity].
Qed.

(** X2.  A candidate path with a [..] segment anywhere, its separators being
    slashes, backslashes or both, is unsafe; a call with such a candidate
    reads no file and does not succeed, whatever the registry holds. *)
Theorem dotdot_segment_never_resolves :
  forall (controller_get : string -> option Skill)
         (readSkillFile : string -> string + string) (args : Args),
    In ".." (split "/" (toPosixPath (lookupPathOf args))) ->
    isUnsafeResourcePath (lookupPathOf args) = true
    /\ reads (resolver controller_get readSkillFile args) = []
    /\ forall r, result (resolver controller_get readSkillFile args) <> inl r.
Proof.
  intros get read args H. apply dotdot_unsafe in H. split; [exact H|].
  destruct (resolver_cases get read args)
    as [Hs|skill Hs Hu|skill Hs Hu Hl|skill e Hs Hu Hl];
    try congruence; split; try reflexivity; intros r; discriminate.
Qed.

(** The theorem at a path that climbs out through backslashes. *)
Lemma dotdot_segment_never_resolves_witness :
  isUnsafeResourcePath "Workflows\..\..\secret" = true
  /\ reads (resolver Fixtures.registry Fixtures.disk
                     (mkArgs "PAI" "workflow" "Workflows\..\..\secret")) = []
  /\ forall r,
       result (resolver Fixtures.registry Fixtures.disk
                        (mkArgs "PAI" "workflow" "Workflows\..\..\secret"))
       <> inl r.
Proof.
  apply (dotdot_segment_never_resolves Fixtures.registry Fixtures.disk
           (mkArgs "PAI" "workflow" "Workflows\..\..\secret")).
  simpl. auto.
Defined.

Lemma startsWith_replaceAll a b s :
  a <> b ->
  startsWith (String b EmptyString) (replaceAll a b s)
  = startsWith (String b EmptyString) s || startsWith (String a EmptyString) s.
Proof.
  intros Hab. destruct s as [|c r]; [reflexivity|].
  cbn [replaceAll]. rewrite !startsWith_char.
  destruct (Ascii.eqb_spec c a) as [->|Hc].
  - rewrite !Ascii.eqb_refl. now rewrite orb_true_r.
  - destruct (Ascii.eqb_spec a c); [congruence|]. now rewrite orb_false_r.
Qed.

Lemma hasDrivePrefix_toPosixPath v :
  hasDrivePrefix (toPosixPath v) = hasDrivePrefix v.
Proof.
  destruct v as [|c0 [|c1 [|c2 r]]]; try reflexivity.
  unfold toPosixPath. cbn [replaceAll hasDrivePrefix].
  destruct (Ascii.eqb c0 "\") eqn:H0.
  { apply Ascii.eqb_eq in H0. subst c0. reflexivity. }
  destruct (Ascii.eqb c1 "\") eqn:H1.
  { apply Ascii.eqb_eq in H1. subst c1. now rewrite !andb_false_r. }
  destruct (Ascii.eqb c2 "\") eqn:H2.
  { apply Ascii.eqb_eq in H2. subst c2. reflexivity. }
  now rewrite H2.
Qed.

Lemma gate_without_leading_backslash v :
  startsWith "\" v = false ->
  isUnsafeResourcePath (toPosixPath v) = isUnsafeResourcePath v.
Proof.
  intros Hb. unfold isUnsafeResourcePath.
  rewrite normalize_toPosixPath, hasDrivePrefix_toPosixPath.
  unfold toPosixPath at 1.
  rewrite (startsWith_replaceAll "\" "/" v) by discriminate.
  now rewrite Hb, orb_false_r.
Qed.

(** X3.  The gate judges the POSIX form of a path as it judges the path,
    but for one case: a leading backslash becomes a leading slash, and only
    then does the path count as absolute. *)
Theorem gate_on_posix_form :
  forall value : string,
    isUnsafeResourcePath (toPosixPath value)
    = isUnsafeResourcePath value || startsWith "\" value.
Proof.
  intros v. unfold isUnsafeResourcePath.
  rewrite normalize_toPosixPath, hasDrivePrefix_toPosixPath.
  unfold toPosixPath at 1.
  rewrite (startsWith_replaceAll "\" "/" v) by discriminate.
  destruct (negb (truthy (normalizeResourcePath v))); [reflexivity|].
  destruct (startsWith "/" v), (startsWith "\" v), (hasDrivePrefix v),
    (includes ".." (segments (normalizeResourcePath v))); reflexivity.
Qed.

End Traversal.

(** ** Paths with one normal form resolve alike *)

Module Separators.
Import Js Resolver Shapes Normalization Traversal ResolverCases.

Section SameNormalForm.

Variables rel1 rel2 : string.
Hypothesis Hnorm : normalizeResourcePath rel1 = normalizeResourcePath rel2.

Lemma legacyCandidates_normal prefix :
  legacyCandidates prefix rel1 = legacyCandidates prefix rel2.
Proof. unfold legacyCandidates. now rewrite Hnorm. Qed.

Lemma resolveLegacyResource_normal skill type :
  resolveLegacyResource skill type rel1 = resolveLegacyResource skill type rel2.
Proof.
  unfold resolveLegacyResource. now rewrite !legacyCandidates_normal.
Qed.

Lemma resolveUnifiedResource_normal skill type :
  resolveUnifiedResource skill type rel1
  = resolveUnifiedResource skill type rel2.
Proof. unfold resolveUnifiedResource. now rewrite Hnorm. Qed.

Lemma retryByPrefix_normal skill :
  retryByPrefix skill rel1 = retryByPrefix skill rel2.
Proof. unfold retryByPrefix. now rewrite Hnorm. Qed.

Lemma lookupEntry_normal skill type :
  rel1 <> "" -> rel2 <> "" ->
  lookupEntry skill type rel1 = lookupEntry skill type rel2.
Proof.
  intros H1 H2. unfold lookupEntry.
  rewrite resolveLegacyResource_normal, resolveUnifiedResource_normal,
    retryByPrefix_normal.
  assert (Ht1 : truthy rel1 = true) by now apply truthy_true_iff.
  assert (Ht2 : truthy rel2 = true) by now apply truthy_true_iff.
  apply String.eqb_neq in H1. apply String.eqb_neq in H2.
  now rewrite Ht1, Ht2, H1, H2.
Qed.

Lemma resolver_normal controller_get readSkillFile name type :
  rel1 <> "" -> rel2 <> "" ->
  isUnsafeResourcePath rel1 = isUnsafeResourcePath rel2 ->
  SameResolution
    (resolver controller_get readSkillFile (mkArgs name type rel1))
    (resolver controller_get readSkillFile (mkArgs name type rel2)).
Proof.
  intros H1 H2 Hu. unfold resolver, lookupPathOf, rawTypeOf.
  cbn [skill_name relative_path Resolver.type].
  assert (Ht1 : truthy rel1 = true) by now apply truthy_true_iff.
  assert (Ht2 : truthy rel2 = true) by now apply truthy_true_iff.
  rewrite Ht1, Ht2, Hu.
  destruct (controller_get name) as [skill|]; [|split; [reflexivity | tauto]].
  rewrite (lookupEntry_normal skill _ H1 H2).
  destruct (isUnsafeResourcePath rel2).
  - split; [reflexivity|]. intros r. split; discriminate.
  - destruct (lookupEntry skill _ rel2); [split; [reflexivity | tauto]|].
    split; [reflexivity|]. intros r. split; discriminate.
Qed.

End SameNormalForm.

Lemma unsafe_empty rel : isUnsafeResourcePath rel = false -> rel <> "".
Proof. intros H ->. discriminate. Qed.

(** X4.  Two safe relative paths with the same normal form resolve alike,
    for every registry, skill name and type: the calls read the same file
    and succeed with the same value.  Leading and trailing slashes and the
    choice of separator make no difference. *)
Theorem same_normal_form_same_resolution :
  forall (controller_get : string -> option Skill)
         (readSkillFile : string -> string + string)
         (name type rel1 rel2 : string),
    isUnsafeResourcePath rel1 = false ->
    isUnsafeResourcePath rel2 = false ->
    normalizeResourcePath rel1 = normalizeResourcePath rel2 ->
    SameResolution
      (resolver controller_get readSkillFile (mkArgs name type rel1))
      (resolver controller_get readSkillFile (mkArgs name type rel2)).
Proof.
  intros get read nm ty rel1 rel2 H1 H2 Hn.
  apply resolver_normal.
  - exact Hn.
  - now apply unsafe_empty.
  - now apply unsafe_empty.
  - now rewrite H1, H2.
Qed.

(** The theorem at a trailing slash and a backslash. *)
Lemma same_normal_form_same_resolution_witness :
  SameResolution
    (resolver Fixtures.registry Fixtures.disk
              (mkArgs "test_skill" "reference" "references/guide.md/"))
    (resolver Fixtures.registry Fixtures.disk
              (mkArgs "test_skill" "reference" "references\guide.md")).
Proof.
  apply (same_normal_form_same_resolution Fixtures.registry Fixtures.disk
           "test_skill" "reference" "references/guide.md/"
           "references\guide.md"); reflexivity.
Defined.

Lemma toPosixPath_empty rel : toPosixPath rel = "" <-> rel = "".
Proof. destruct rel; simpl; split; intros H; (discriminate || reflexivity). Qed.

(** X5.  A relative path written with backslashes resolves as the same path
    written with slashes, provided it does not begin with a backslash. *)
Theorem windows_separators_resolve_alike :
  forall (controller_get : string -> option Skill)
         (readSkillFile : string -> string + string)
         (name type rel : string),
    startsWith "\" rel = false ->
    SameResolution
      (resolver controller_get readSkillFile (mkArgs name type rel))
      (resolver controller_get readSkillFile
                (mkArgs name type (toPosixPath rel))).
Proof.
  intros get read nm ty rel Hb.
  destruct (String.eqb_spec rel "") as [->|Hne].
  - split; [reflexivity | tauto].
  - apply resolver_normal.
    + now rewrite normalize_toPosixPath.
    + exact Hne.
    + now rewrite toPosixPath_empty.
    + symmetry. now apply gate_without_leading_backslash.
Qed.

(** The theorem at the Windows-style request of the reader tests. *)
Lemma windows_separators_resolve_alike_witness :
  SameResolution
    (resolver Fixtures.registry Fixtures.disk
              (mkArgs "PAI" "" "Workflows\Onboarding.md"))
    (resolver Fixtures.registry Fixtures.disk
              (mkArgs "PAI" "" "Workflows/Onboarding.md")).
Proof.
  apply (windows_separators_resolve_alike Fixtures.registry Fixtures.disk
           "PAI" "" "Workflows\Onboarding.md").
  reflexivity.
Defined.

End Separators.

(** ** When a map lookup succeeds *)

Module Lookup.
Import Js Resolver Shapes Normalization ResolverFacts Probing AsciiText.

Lemma probeExact_found m cands e :
  probeExact m cands = Some e ->
  exists c, In c cands /\ normalizeResourcePath c <> ""
            /\ map_get (normalizeResourcePath c) m = Some e.
Proof.
  induction cands as [|c r IH]; simpl; [discriminate|].
  destruct (truthy (normalizeResourcePath c)) eqn:Ht; simpl.
  - apply truthy_true_iff in Ht.
    destruct (map_get (normalizeResourcePath c) m) eqn:Hg.
    + intros [= <-]. eauto.
    + intros H. destruct (IH H) as [c' [Hin Hc']]. eauto.
  - intros H. destruct (IH H) as [c' [Hin Hc']]. eauto.
Qed.

Lemma probeLowered_found m cands e :
  probeLowered (loweredMap m) cands = Some e ->
  exists c k, In c cands /\ normalizeResourcePath c <> "" /\ In (k, e) m
              /\ toLowerCase k = toLowerCase (normalizeResourcePath c).
Proof.
  induction cands as [|c r IH]; simpl; [discriminate|].
  destruct (truthy (toLowerCase (normalizeResourcePath c))) eqn:Ht; simpl.
  - apply truthy_true_iff in Ht. rewrite toLowerCase_empty in Ht.
    destruct (map_get _ (loweredMap m)) eqn:Hg.
    + intros [= <-]. apply loweredMap_get_In in Hg.
      destruct Hg as [k [Hin Hk]]. exists c, k. auto.
    + intros H. destruct (IH H) as [c' [k [Hin Hk]]]. eauto.
  - intros H. destruct (IH H) as [c' [k [Hin Hk]]]. eauto.
Qed.

Lemma probeLowered_exists lowered cands c e :
  In c cands -> normalizeResourcePath c <> "" ->
  map_get (toLowerCase (normalizeResourcePath c)) lowered = Some e ->
  exists e', probeLowered lowered cands = Some e'.
Proof.
  intros Hin Hn Hg. induction cands as [|c' r IH]; [contradiction|].
  simpl.
  destruct (negb (truthy (toLowerCase (normalizeResourcePath c')))) eqn:Ht.
  - destruct Hin as [->|Hin]; [|auto].
    apply negb_true_iff, truthy_false_iff in Ht.
    apply (proj1 (toLowerCase_empty _)) in Ht. contradiction.
  - destruct (map_get (toLowerCase (normalizeResourcePath c')) lowered) eqn:Hg';
      [eauto|].
    destruct Hin as [->|Hin]; [congruence | auto].
Qed.

Lemma findInMap_found om cands e :
  findInMap om cands = Some e ->
  exists c k, In c cands /\ normalizeResourcePath c <> ""
              /\ In (k, e) (entriesOf om)
              /\ toLowerCase k = toLowerCase (normalizeResourcePath c).
Proof.
  unfold findInMap. destruct (probeExact _ cands) as [x|] eqn:Hx.
  - intros [= <-]. apply probeExact_found in Hx.
    destruct Hx as [c [Hin [Hn Hg]]]. apply map_get_In in Hg.
    exists c, (normalizeResourcePath c). auto.
  - apply probeLowered_found.
Qed.

Lemma findInMap_complete om cands :
  SomeKeyMatches (entriesOf om) cands -> exists e, findInMap om cands = Some e.
Proof.
  intros [c [k [e [Hin [Hn [Hk Hf]]]]]]. unfold findInMap.
  destruct (probeExact _ cands) as [x|]; [eauto|].
  destruct (loweredMap_get_some _ _ _ Hk) as [e' He'].
  rewrite Hf in He'. eapply probeLowered_exists; eauto.
Qed.

(** X6.  With ASCII keys and ASCII candidates, a lookup in a resource map
    succeeds exactly when some key of the map equals, with case folded, the
    normalized form of some candidate that does not normalize to the empty
    string; the entry it returns is stored under such a key.  So a lookup in
    a missing or empty map, or with no usable candidate, finds nothing. *)
Theorem findInMap_succeeds_iff_key_matches :
  forall (resourceMap : option SkillResourceMap) (candidates : list string),
    asciiKeys (entriesOf resourceMap) = true ->
    forallb isAscii candidates = true ->
    (findInMap resourceMap candidates = None
     <-> ~ SomeKeyMatches (entriesOf resourceMap) candidates)
    /\ (forall e,
           findInMap resourceMap candidates = Some e ->
           exists c k,
             In c candidates /\ normalizeResourcePath c <> ""
             /\ In (k, e) (entriesOf resourceMap)
             /\ toLowerCase k = toLowerCase (normalizeResourcePath c)).
Proof.
  intros om cands _ _. split; [|apply findInMap_found].
  split.
  - intros Hnone Hm. destruct (findInMap_complete _ _ Hm) as [e He].
    congruence.
  - intros Hno. destruct (findInMap om cands) as [e|] eqn:He; [|reflexivity].
    exfalso. apply Hno. apply findInMap_found in He.
    destruct He as [c [k [Hin [Hn [Hk Hf]]]]]. exists c, k, e. auto.
Qed.

(** The theorem at the unified map of the [PAI] skill, asked in capitals. *)
Lemma findInMap_succeeds_iff_key_matches_witness :
  exists c k,
    In c ["CORESTACK.MD"] /\ normalizeResourcePath c <> ""
    /\ In (k, mkEntry "/skills/PAI/CoreStack.md" "text/markdown")
          (entriesOf (resources Fixtures.PAI))
    /\ toLowerCase k = toLowerCase (normalizeResourcePath c).
Proof.
  apply (proj2 (findInMap_succeeds_iff_key_matches
                  (resources Fixtures.PAI) ["CORESTACK.MD"] eq_refl eq_refl)).
  reflexivity.
Defined.

Lemma probeExact_normalized m cands :
  probeExact m (map normalizeResourcePath cands) = probeExact m cands.
Proof.
  induction cands as [|c r IH]; [reflexivity|].
  simpl. now rewrite normalize_idem, IH.
Qed.

Lemma probeLowered_normalized lowered cands :
  probeLowered lowered (map normalizeResourcePath cands)
  = probeLowered lowered cands.
Proof.
  induction cands as [|c r IH]; [reflexivity|].
  simpl. now rewrite normalize_idem, IH.
Qed.

(** X7.  A lookup does not depend on how its candidates are written: with
    every candidate replaced by its normal form it gives the same entry. *)
Theorem findInMap_normalizes_candidates :
  forall (resourceMap : option SkillResourceMap) (candidates : list string),
    findInMap resourceMap (map normalizeResourcePath candidates)
    = findInMap resourceMap candidates.
Proof.
  intros om cands. unfold findInMap.
  now rewrite probeExact_normalized, probeLowered_normalized.
Qed.

End Lookup.

(** ** Case folding and normalization commute; prefixes of a normal form *)

Module Folding.
Import Js Resolver Shapes Normalization AsciiText.

Lemma lowerChar_slash c : Ascii.eqb (lowerChar c) "/" = Ascii.eqb c "/".
Proof. destruct c as [[] [] [] [] [] [] [] []]; reflexivity. Qed.

Lemma lowerChar_backslash c : Ascii.eqb (lowerChar c) "\" = Ascii.eqb c "\".
Proof. destruct c as [[] [] [] [] [] [] [] []]; reflexivity. Qed.

Lemma lowerChar_idem c : lowerChar (lowerChar c) = lowerChar c.
Proof. destruct c as [[] [] [] [] [] [] [] []]; reflexivity. Qed.

Lemma toLowerCase_idem s : toLowerCase (toLowerCase s) = toLowerCase s.
Proof.
  induction s as [|c r IH]; simpl; [reflexivity|].
  now rewrite lowerChar_idem, IH.
Qed.

Lemma toLowerCase_app s t :
  toLowerCase (s ++ t) = toLowerCase s ++ toLowerCase t.
Proof. induction s as [|c r IH]; simpl; [reflexivity | now rewrite IH]. Qed.

Section Separator.

(** A character case folding neither produces nor changes. *)
Variable a : ascii.
Hypothesis Hfold : forall c, Ascii.eqb (lowerChar c) a = Ascii.eqb c a.

Lemma lowerChar_fixed : lowerChar a = a.
Proof. apply Ascii.eqb_eq. rewrite Hfold. apply Ascii.eqb_refl. Qed.

Lemma toLowerCase_stripLeading s :
  toLowerCase (stripLeading a s) = stripLeading a (toLowerCase s).
Proof.
  induction s as [|c r IH]; [reflexivity|].
  cbn [stripLeading toLowerCase]. rewrite Hfold.
  destruct (Ascii.eqb c a); [exact IH | reflexivity].
Qed.

Lemma toLowerCase_stripTrailing s :
  toLowerCase (stripTrailing a s) = stripTrailing a (toLowerCase s).
Proof.
  induction s as [|c r IH]; [reflexivity|].
  cbn [toLowerCase]. rewrite !stripTrailing_cons, <- IH, Hfold.
  destruct (stripTrailing a r) as [|d r']; cbn [toLowerCase].
  - destruct (Ascii.eqb c a); reflexivity.
  - reflexivity.
Qed.

Lemma toLowerCase_replaceAll b s :
  lowerChar b = b ->
  toLowerCase (replaceAll a b s) = replaceAll a b (toLowerCase s).
Proof.
  intros Hb. induction s as [|c r IH]; [reflexivity|].
  cbn [replaceAll toLowerCase]. rewrite Hfold, IH.
  destruct (Ascii.eqb c a); [now rewrite Hb | reflexivity].
Qed.

End Separator.

Lemma toLowerCase_normalize value :
  toLowerCase (normalizeResourcePath value)
  = normalizeResourcePath (toLowerCase value).
Proof.
  unfold normalizeResourcePath, toPosixPath.
  rewrite (toLowerCase_stripTrailing "/" lowerChar_slash).
  rewrite (toLowerCase_stripLeading "/" lowerChar_slash).
  rewrite (toLowerCase_replaceAll "\" lowerChar_backslash "/").
  - reflexivity.
  - apply (lowerChar_fixed "/" lowerChar_slash).
Qed.

Lemma lowerChar_colon c : Ascii.eqb (lowerChar c) ":" = Ascii.eqb c ":".
Proof. destruct c as [[] [] [] [] [] [] [] []]; reflexivity. Qed.

Lemma lowerChar_dot c : Ascii.eqb (lowerChar c) "." = Ascii.eqb c ".".
Proof. destruct c as [[] [] [] [] [] [] [] []]; reflexivity. Qed.

Lemma lowerChar_letter c :
  isUpper (lowerChar c) || isLower (lowerChar c) = isUpper c || isLower c.
Proof. destruct c as [[] [] [] [] [] [] [] []]; reflexivity. Qed.

Lemma truthy_toLowerCase s : truthy (toLowerCase s) = truthy s.
Proof. destruct s; reflexivity. Qed.

Lemma startsWith_slash_toLowerCase v :
  startsWith "/" (toLowerCase v) = startsWith "/" v.
Proof.
  destruct v as [|c r]; [reflexivity|]. cbn [toLowerCase].
  rewrite !startsWith_char, !(Ascii.eqb_sym "/"). apply lowerChar_slash.
Qed.

Lemma hasDrivePrefix_toLowerCase v :
  hasDrivePrefix (toLowerCase v) = hasDrivePrefix v.
Proof.
  destruct v as [|c0 [|c1 [|c2 r]]]; try reflexivity.
  cbn [toLowerCase hasDrivePrefix].
  now rewrite lowerChar_letter, lowerChar_colon, lowerChar_backslash,
    lowerChar_slash.
Qed.

Lemma split_toLowerCase s :
  split "/" (toLowerCase s) = map toLowerCase (split "/" s).
Proof.
  induction s as [|c r IH]; [reflexivity|].
  cbn [toLowerCase]. rewrite !Traversal.split_cons, lowerChar_slash, IH.
  destruct (Ascii.eqb c "/"); [reflexivity|].
  destruct (split "/" r); reflexivity.
Qed.

Lemma dotdot_toLowerCase y : (toLowerCase y =? "..") = (y =? "..").
Proof.
  destruct y as [|c1 [|c2 [|c3 r]]]; try reflexivity;
    cbn [toLowerCase String.eqb];
    now rewrite ?lowerChar_dot.
Qed.

Lemma includes_dotdot_toLowerCase l :
  includes ".." (filter truthy (map toLowerCase l))
  = includes ".." (filter truthy l).
Proof.
  induction l as [|y r IH]; [reflexivity|].
  cbn [map filter]. rewrite truthy_toLowerCase.
  destruct (truthy y); [|exact IH].
  cbn [includes]. now rewrite dotdot_toLowerCase, IH.
Qed.

(** X8.  Normalization changes no letter case and case folding changes no
    separator, so the two commute; and on an ASCII path the gate does not
    look at letter case: the path is unsafe exactly when its lower-cased form
    is.  (Outside ASCII the code's folding can make a drive prefix: the
    Kelvin sign before a colon folds to [k].) *)
Theorem gate_ignores_letter_case :
  forall value : string,
    toLowerCase (normalizeResourcePath value)
    = normalizeResourcePath (toLowerCase value)
    /\ (isAscii value = true ->
        isUnsafeResourcePath (toLowerCase value) = isUnsafeResourcePath value).
Proof.
  intros v. split; [apply toLowerCase_normalize|]. intros _.
  unfold isUnsafeResourcePath, segments.
  rewrite <- toLowerCase_normalize, truthy_toLowerCase,
    startsWith_slash_toLowerCase, hasDrivePrefix_toLowerCase,
    split_toLowerCase, includes_dotdot_toLowerCase.
  reflexivity.
Qed.

(** The theorem at a drive-letter path and at a traversal written in
    capitals. *)
Lemma gate_ignores_letter_case_witness :
  isUnsafeResourcePath (toLowerCase "C:/Windows/WIN.INI")
  = isUnsafeResourcePath "C:/Windows/WIN.INI"
  /\ isUnsafeResourcePath (toLowerCase "Workflows/../SECRET.md")
     = isUnsafeResourcePath "Workflows/../SECRET.md".
Proof.
  split.
  - apply (proj2 (gate_ignores_letter_case "C:/Windows/WIN.INI")).
    reflexivity.
  - apply (proj2 (gate_ignores_letter_case "Workflows/../SECRET.md")).
    reflexivity.
Defined.

Lemma append_associative (x y z : string) : (x ++ y) ++ z = x ++ (y ++ z).
Proof. induction x as [|c x IH]; simpl; [reflexivity | now rewrite IH]. Qed.

Lemma stripLeading_app a x y :
  startsWith (String a EmptyString) y = false ->
  stripLeading a (x ++ y) = stripLeading a x ++ y.
Proof.
  intros Hy. induction x as [|c r IH].
  - simpl. now apply stripLeading_fixed.
  - cbn [append stripLeading]. destruct (Ascii.eqb c a); [exact IH | reflexivity].
Qed.

Lemma stripTrailing_app a x y :
  stripTrailing a y = y -> y <> "" -> stripTrailing a (x ++ y) = x ++ y.
Proof.
  intros Hy Hne. induction x as [|c r IH]; [exact Hy|].
  cbn [append]. rewrite stripTrailing_cons, IH.
  destruct (r ++ y) eqn:Hr; [|reflexivity].
  destruct r; [simpl in Hr; congruence | discriminate].
Qed.

Lemma normal_form_of rel :
  normalizeResourcePath rel <> "" -> NormalForm (normalizeResourcePath rel).
Proof. intros H. split; [apply normalize_idem | exact H]. Qed.

Lemma normalize_app x nr :
  NormalForm nr ->
  normalizeResourcePath (x ++ nr) = stripLeading "/" (toPosixPath x) ++ nr.
Proof.
  intros [Hn Hne].
  assert (Hb : contains "\" nr = false)
    by (rewrite <- Hn; apply normalize_no_backslash).
  assert (Hs : startsWith "/" nr = false)
    by (rewrite <- Hn; apply normalize_no_leading_slash).
  assert (Ht : stripTrailing "/" nr = nr).
  { pose proof (stripTrailing_idem "/" (stripLeading "/" (toPosixPath nr)))
      as H.
    change (stripTrailing "/" (stripLeading "/" (toPosixPath nr)))
      with (normalizeResourcePath nr) in H.
    now rewrite Hn in H. }
  unfold normalizeResourcePath, toPosixPath.
  rewrite replaceAll_app, (replaceAll_without "\" "/" nr Hb).
  rewrite stripLeading_app by exact Hs.
  now apply stripTrailing_app.
Qed.

End Folding.

(** ** Which entry a typed or a generic request gets *)

Module TypedHits.
Import Js Resolver Shapes Normalization Folding ResolverFacts ResolverCases
       Probing Legacy Separators.

Lemma lookupPathOf_relative name type rel :
  rel <> "" -> lookupPathOf (mkArgs name type rel) = rel.
Proof.
  intros H. unfold lookupPathOf. simpl relative_path.
  apply truthy_true_iff in H. now rewrite H.
Qed.

Lemma unsafe_normal rel :
  isUnsafeResourcePath rel = false -> NormalForm (normalizeResourcePath rel).
Proof.
  intros H. apply normal_form_of. intros Hn.
  unfold isUnsafeResourcePath in H. now rewrite Hn in H.
Qed.

Lemma legacy_type_resolve skill type dir m rel :
  LegacyType skill type dir m ->
  resolveLegacyResource skill type rel
  = findInMap (Some m) (legacyCandidates dir rel).
Proof.
  intros [H|H|H].
  - now apply resolveLegacy_scripts.
  - now apply resolveLegacy_assets.
  - now apply resolveLegacy_references.
Qed.

Lemma legacy_type_named skill type dir m :
  LegacyType skill type dir m -> toLowerCase type <> "".
Proof. intros [H|H|H]; destruct H as [<-|[<-|[]]]; discriminate. Qed.

Lemma legacy_dir skill type dir m :
  LegacyType skill type dir m ->
  toLowerCase dir = dir
  /\ forall nr, NormalForm nr ->
                normalizeResourcePath (dir ++ "/" ++ nr) = dir ++ "/" ++ nr.
Proof.
  intros [H|H|H]; (split; [reflexivity|]); intros nr Hn.
  - exact (normalize_app "scripts/" nr Hn).
  - exact (normalize_app "assets/" nr Hn).
  - exact (normalize_app "references/" nr Hn).
Qed.

Lemma legacy_lookup_hits skill type dir m rel e :
  LegacyType skill type dir m ->
  NormalForm (normalizeResourcePath rel) ->
  map_get (normalizeResourcePath rel) m = Some e
  \/ (map_get (normalizeResourcePath rel) m = None
      /\ startsWith (dir ++ "/") (toLowerCase (normalizeResourcePath rel))
         = false
      /\ map_get (dir ++ "/" ++ normalizeResourcePath rel) m = Some e) ->
  resolveLegacyResource skill type rel = Some e.
Proof.
  intros HL Hnf Hcase. rewrite (legacy_type_resolve _ _ _ _ rel HL).
  destruct (legacy_dir _ _ _ _ HL) as [Hdir Hpre].
  destruct Hnf as [Hidem Hne]. pose proof Hne as Ht.
  apply truthy_true_iff in Ht.
  unfold legacyCandidates. rewrite Ht, Hdir. cbv zeta. cbn [negb].
  destruct Hcase as [Hexact|[Hmiss [Hstart Hfull]]].
  - assert (Hhit : forall tail,
               findInMap (Some m) (normalizeResourcePath rel :: tail) = Some e).
    { intros tail. apply (findInMap_exact m [] _ tail e).
      - intros c [].
      - now rewrite Hidem.
      - now rewrite Hidem. }
    destruct (startsWith _ _); apply Hhit.
  - rewrite Hstart.
    apply (findInMap_exact m [normalizeResourcePath rel] _ [] e).
    + intros c [<-|[]]. right. now rewrite Hidem.
    + rewrite Hpre by (split; assumption). destruct dir; discriminate.
    + now rewrite Hpre by (split; assumption).
Qed.

(** X9.  With a type that names a legacy map (script, asset or reference,
    singular or plural, in any letter case) and a safe relative path, the
    call reads the entry stored in that map under the normalized path; when
    there is none and the path is not under the type directory already, it
    reads the entry stored under the path prefixed with that directory. *)
Theorem legacy_request_reads_typed_entry :
  forall (controller_get : string -> option Skill)
         (readSkillFile : string -> string + string)
         (skill : Skill) (name type dir rel : string)
         (m : SkillResourceMap) (e : ResourceEntry),
    controller_get name = Some skill ->
    LegacyType skill type dir m ->
    isUnsafeResourcePath rel = false ->
    map_get (normalizeResourcePath rel) m = Some e
    \/ (map_get (normalizeResourcePath rel) m = None
        /\ startsWith (dir ++ "/") (toLowerCase (normalizeResourcePath rel))
           = false
        /\ map_get (dir ++ "/" ++ normalizeResourcePath rel) m = Some e) ->
    resolver controller_get readSkillFile (mkArgs name type rel)
    = readEntry readSkillFile e.
Proof.
  intros get read skill nm ty dir rel m e Hget HL Hsafe Hcase.
  pose proof (unsafe_empty _ Hsafe) as Hne.
  apply resolver_hit with (skill := skill).
  - exact Hget.
  - now rewrite lookupPathOf_relative.
  - rewrite rawTypeOf_typed by exact (legacy_type_named _ _ _ _ HL).
    apply lookupEntry_first_hit.
    apply (legacy_lookup_hits skill ty dir m rel e HL); [|exact Hcase].
    now apply unsafe_normal.
Qed.

(** The theorem at a script asked for without its directory, in capitals
    for the type. *)
Lemma legacy_request_reads_typed_entry_witness :
  resolver Fixtures.registry Fixtures.disk
           (mkArgs "test_skill" "SCRIPTS" "build.sh")
  = readEntry Fixtures.disk
      (mkEntry "/skills/test_skill/scripts/build.sh" "application/x-sh").
Proof.
  apply (legacy_request_reads_typed_entry Fixtures.registry Fixtures.disk
           Fixtures.test_skill "test_skill" "SCRIPTS" "scripts" "build.sh"
           (scripts Fixtures.test_skill)).
  - reflexivity.
  - apply legacy_scripts. simpl. auto.
  - reflexivity.
  - right. repeat split; reflexivity.
Defined.

Lemma generic_folded type :
  GenericType type ->
  toLowerCase (normalizeResourcePath type) = toLowerCase type.
Proof.
  unfold GenericType. rewrite toLowerCase_normalize.
  intros [H|[H|[H|[H|[]]]]]; rewrite <- H; reflexivity.
Qed.

Lemma resolveLegacy_generic skill type rel :
  GenericType type -> resolveLegacyResource skill type rel = None.
Proof.
  unfold GenericType, resolveLegacyResource.
  intros [H|[H|[H|[H|[]]]]]; rewrite <- H; reflexivity.
Qed.

Lemma resolveUnified_generic skill type rel :
  GenericType type ->
  resolveUnifiedResource skill type rel
  = resolveUnifiedResource skill "resource" rel.
Proof.
  intros Hg. unfold resolveUnifiedResource. rewrite (generic_folded _ Hg).
  destruct (resources skill) as [[|kv m]|]; try reflexivity.
  destruct Hg as [H|[H|[H|[H|[]]]]]; rewrite <- H; reflexivity.
Qed.

Lemma lookupEntry_generic_type skill type rel :
  GenericType type -> rel <> "" ->
  lookupEntry skill type rel = lookupEntry skill "resource" rel.
Proof.
  intros Hg Hne. unfold lookupEntry.
  rewrite (resolveLegacy_generic skill type rel Hg).
  rewrite (resolveLegacy_generic skill "resource" rel)
    by (unfold GenericType; simpl; auto).
  rewrite (resolveUnified_generic skill type rel Hg).
  pose proof Hg as Hi. apply includes_In in Hi. rewrite Hi.
  apply String.eqb_neq in Hne. rewrite Hne. reflexivity.
Qed.

(** X10.  The generic type names [resource], [resources], [doc] and [docs],
    in any letter case, and the empty type are interchangeable when a
    relative path is given: two such calls for the same skill and path read
    the same file and succeed with the same value. *)
Theorem generic_types_interchangeable :
  forall (controller_get : string -> option Skill)
         (readSkillFile : string -> string + string)
         (name type1 type2 rel : string),
    GenericType (rawTypeOf (mkArgs name type1 rel)) ->
    GenericType (rawTypeOf (mkArgs name type2 rel)) ->
    rel <> "" ->
    SameResolution
      (resolver controller_get readSkillFile (mkArgs name type1 rel))
      (resolver controller_get readSkillFile (mkArgs name type2 rel)).
Proof.
  intros get read nm t1 t2 rel H1 H2 Hne. unfold resolver.
  rewrite !lookupPathOf_relative by exact Hne. cbn [skill_name relative_path].
  destruct (get nm) as [skill|]; [|split; [reflexivity | tauto]].
  rewrite (lookupEntry_generic_type skill _ rel H1 Hne).
  rewrite (lookupEntry_generic_type skill _ rel H2 Hne).
  destruct (isUnsafeResourcePath rel).
  - split; [reflexivity|]. intros r. split; discriminate.
  - destruct (lookupEntry skill "resource" rel);
      [split; [reflexivity | tauto]|].
    split; [reflexivity|]. intros r. split; discriminate.
Qed.

(** The theorem at an empty type and [DOCS]. *)
Lemma generic_types_interchangeable_witness :
  SameResolution
    (resolver Fixtures.registry Fixtures.disk
              (mkArgs "PAI" "" "workflows/onboarding.md"))
    (resolver Fixtures.registry Fixtures.disk
              (mkArgs "PAI" "DOCS" "workflows/onboarding.md")).
Proof.
  apply (generic_types_interchangeable Fixtures.registry Fixtures.disk
           "PAI" "" "DOCS" "workflows/onboarding.md").
  - unfold GenericType. simpl. auto.
  - unfold GenericType. simpl. auto.
  - discriminate.
Defined.

(** X11.  With a generic type (or none) and a safe relative path whose
    normal form is a key of the unified map, the call reads the entry stored
    under that key: neither a legacy map nor a [Workflows/] or [Tools/]
    variant is preferred to it. *)
Theorem generic_request_reads_exact_unified_entry :
  forall (controller_get : string -> option Skill)
         (readSkillFile : string -> string + string)
         (skill : Skill) (name type rel : string)
         (m : SkillResourceMap) (e : ResourceEntry),
    controller_get name = Some skill ->
    GenericType (rawTypeOf (mkArgs name type rel)) ->
    isUnsafeResourcePath rel = false ->
    resources skill = Some m ->
    map_get (normalizeResourcePath rel) m = Some e ->
    resolver controller_get readSkillFile (mkArgs name type rel)
    = readEntry readSkillFile e.
Proof.
  intros get read skill nm ty rel m e Hget Hg Hsafe Hres Hkey.
  pose proof (unsafe_empty _ Hsafe) as Hne.
  destruct (unsafe_normal _ Hsafe) as [Hidem Hnn].
  apply resolver_hit with (skill := skill).
  - exact Hget.
  - now rewrite lookupPathOf_relative.
  - cbn [relative_path]. rewrite (lookupEntry_generic_type skill _ rel Hg Hne).
    unfold lookupEntry.
    assert (Hu : resolveUnifiedResource skill "resource" rel = Some e).
    { unfold resolveUnifiedResource. rewrite Hres.
      destruct m as [|kv m']; [discriminate|].
      change (findInMap (Some (kv :: m'))
                (normalizeResourcePath rel
                 :: app (if negb (startsWith "workflows/"
                                    (toLowerCase (normalizeResourcePath rel)))
                         then ["Workflows/" ++ normalizeResourcePath rel]
                         else [])
                        (if negb (startsWith "tools/"
                                    (toLowerCase (normalizeResourcePath rel)))
                         then ["Tools/" ++ normalizeResourcePath rel]
                         else []))
              = Some e).
      apply (findInMap_exact (kv :: m') [] _ _ e).
      - intros c [].
      - now rewrite Hidem.
      - now rewrite Hidem. }
    rewrite Hu.
    rewrite (resolveLegacy_generic skill "resource" rel)
      by (unfold GenericType; simpl; auto).
    reflexivity.
Qed.

(** The theorem at the workflow file of the [PAI] skill, asked with a
    backslash and no type. *)
Lemma generic_request_reads_exact_unified_entry_witness :
  resolver Fixtures.registry Fixtures.disk
           (mkArgs "PAI" "" "Workflows\Onboarding.md")
  = readEntry Fixtures.disk Fixtures.onboarding.
Proof.
  apply (generic_request_reads_exact_unified_entry
           Fixtures.registry Fixtures.disk Fixtures.PAI "PAI" ""
           "Workflows\Onboarding.md"
           [("Workflows/Onboarding.md", Fixtures.onboarding);
            ("CoreStack.md",
             mkEntry "/skills/PAI/CoreStack.md" "text/markdown")]);
    try reflexivity.
  unfold GenericType. simpl. auto.
Defined.

End TypedHits.

(** ** The entry returned is stored under the path asked for *)

Module Suffix.
Import Js Resolver Shapes Normalization Folding ResolverFacts ResolverCases
       Lookup TypedHits Separators AsciiText.

Section Asked.

(** The normal form of the relative path asked for. *)
Variable nr : string.
Hypothesis Hnf : NormalForm nr.

Lemma findInMap_suffix om cands e :
  Prefixed nr cands ->
  findInMap om cands = Some e ->
  exists k p, In (k, e) (entriesOf om)
              /\ toLowerCase k = p ++ toLowerCase nr.
Proof.
  intros Hp H. apply findInMap_found in H.
  destruct H as [c [k [Hin [_ [Hk Hf]]]]].
  destruct (Hp c Hin) as [x ->].
  rewrite (normalize_app x nr Hnf), toLowerCase_app in Hf. eauto.
Qed.

Lemma prefixed_one : Prefixed nr [nr].
Proof. intros c [<-|[]]. now exists "". Qed.

Lemma prefixed_cons x l : Prefixed nr l -> Prefixed nr ((x ++ nr) :: l).
Proof. intros H c [<-|Hc]; [eauto | auto]. Qed.

Lemma prefixed_self l : Prefixed nr l -> Prefixed nr (nr :: l).
Proof. intros H c [<-|Hc]; [now exists "" | auto]. Qed.

Lemma prefixed_nil : Prefixed nr [].
Proof. intros c []. Qed.

Lemma truthy_nr : truthy nr = true.
Proof. apply truthy_true_iff. apply Hnf. Qed.

Lemma resolveLegacy_suffix skill type rel e :
  normalizeResourcePath rel = nr ->
  resolveLegacyResource skill type rel = Some e ->
  exists k p, StoredUnder skill k e /\ toLowerCase k = p ++ toLowerCase nr.
Proof.
  intros Hrel. unfold resolveLegacyResource, legacyCandidates, StoredUnder.
  rewrite Hrel, truthy_nr. cbv zeta. cbn [negb].
  assert (Hc : forall dir,
             Prefixed nr (if startsWith (toLowerCase dir ++ "/") (toLowerCase nr)
                       then [nr] else [nr; dir ++ "/" ++ nr])).
  { intros dir. destruct (startsWith _ _); [apply prefixed_one|].
    apply prefixed_self. rewrite <- append_associative.
    apply prefixed_cons, prefixed_nil. }
  destruct (_ || _).
  { intros H. destruct (findInMap_suffix _ _ _ (Hc "scripts") H)
      as [k [p [Hin Hk]]]. exists k, p. simpl in Hin. tauto. }
  destruct (_ || _).
  { intros H. destruct (findInMap_suffix _ _ _ (Hc "assets") H)
      as [k [p [Hin Hk]]]. exists k, p. simpl in Hin. tauto. }
  destruct (_ || _); [|discriminate].
  intros H. destruct (findInMap_suffix _ _ _ (Hc "references") H)
    as [k [p [Hin Hk]]]. exists k, p. simpl in Hin. tauto.
Qed.

Lemma resolveUnified_suffix skill type rel e :
  normalizeResourcePath rel = nr ->
  resolveUnifiedResource skill type rel = Some e ->
  exists k p, StoredUnder skill k e /\ toLowerCase k = p ++ toLowerCase nr.
Proof.
  intros Hrel. unfold resolveUnifiedResource, StoredUnder.
  rewrite Hrel, truthy_nr. cbv zeta.
  destruct (resources skill) as [[|kv m]|]; try discriminate.
  assert (Hfin : forall cands,
             Prefixed nr cands ->
             findInMap (Some (kv :: m)) cands = Some e ->
             exists k p,
               (In (k, e) (scripts skill) \/ In (k, e) (references skill)
                \/ In (k, e) (assets skill)
                \/ In (k, e) (entriesOf (Some (kv :: m))))
               /\ toLowerCase k = p ++ toLowerCase nr).
  { intros cands Hp H. destruct (findInMap_suffix _ _ _ Hp H)
      as [k [p [Hin Hk]]]. exists k, p. tauto. }
  destruct (_ || _).
  { apply Hfin. apply prefixed_self, prefixed_cons, prefixed_nil. }
  destruct (_ || _).
  { apply Hfin. apply prefixed_self, prefixed_cons, prefixed_nil. }
  destruct (_ || _).
  { apply Hfin. apply prefixed_self.
    destruct (negb (startsWith "workflows/" _)),
             (negb (startsWith "tools/" _)); cbn [app];
      repeat apply prefixed_cons; apply prefixed_nil. }
  apply Hfin. rewrite <- append_associative.
  apply prefixed_cons, prefixed_one.
Qed.

Lemma normalize_nr : normalizeResourcePath nr = nr.
Proof. apply Hnf. Qed.

Lemma retryByPrefix_suffix skill rel e :
  normalizeResourcePath rel = nr ->
  retryByPrefix skill rel = Some e ->
  exists k p, StoredUnder skill k e /\ toLowerCase k = p ++ toLowerCase nr.
Proof.
  intros Hrel. unfold retryByPrefix. rewrite Hrel. intros H.
  repeat (apply orElse_Some in H; destruct H as [H|[_ H]]);
    repeat match type of H with
           | (if ?b then _ else _) = _ => destruct b
           end;
    try discriminate; eauto using resolveLegacy_suffix, normalize_nr.
Qed.

Lemma lookupEntry_suffix skill type rel e :
  normalizeResourcePath rel = nr ->
  lookupEntry skill type rel = Some e ->
  exists k p, StoredUnder skill k e /\ toLowerCase k = p ++ toLowerCase nr.
Proof.
  intros Hrel. unfold lookupEntry.
  assert (Hne : (rel =? "") = false).
  { apply String.eqb_neq. intros ->. destruct Hnf as [_ Hn]. now apply Hn. }
  rewrite Hne.
  destruct (resolveLegacyResource skill type rel <|> _) as [e2|] eqn:H2.
  - intros [= <-]. apply orElse_Some in H2. destruct H2 as [H|[_ H]];
      eauto using resolveLegacy_suffix, resolveUnified_suffix.
  - destruct (includes _ _ && truthy rel); [|discriminate].
    destruct (retryByPrefix skill rel) as [e3|] eqn:H3; [|discriminate].
    intros [= <-]. eauto using retryByPrefix_suffix.
Qed.

End Asked.

(** X12.  For an ASCII type, an ASCII relative path and skills whose map
    keys are ASCII: when a relative path is given, whatever the type, a call
    that succeeds returns a file indexed for the skill under a key that ends,
    with case folded, in the normal form of that path: the entry may come
    from under a directory the resolver put in front, never from another
    path. *)
Theorem resolved_key_ends_with_requested_path :
  forall (controller_get : string -> option Skill)
         (readSkillFile : string -> string + string)
         (args : Args) (r : Resolved),
    (forall skill, controller_get (skill_name args) = Some skill ->
                   asciiSkill skill = true) ->
    isAscii (type args) = true ->
    isAscii (relative_path args) = true ->
    relative_path args <> "" ->
    result (resolver controller_get readSkillFile args) = inl r ->
    exists skill k p e,
      controller_get (skill_name args) = Some skill
      /\ StoredUnder skill k e
      /\ absolute_path r = absolutePath e
      /\ resolved_mimeType r = mimeType e
      /\ toLowerCase k
         = p ++ toLowerCase (normalizeResourcePath (relative_path args)).
Proof.
  intros get read args r _ _ _ Hne Hr.
  assert (Hpath : lookupPathOf args = relative_path args).
  { unfold lookupPathOf. apply truthy_true_iff in Hne. now rewrite Hne. }
  destruct (resolver_cases get read args)
    as [Hs|skill Hs Hu|skill Hs Hu Hl|skill e Hs Hu Hl]; try discriminate.
  rewrite Hpath in Hu.
  destruct (lookupEntry_suffix _ (unsafe_normal _ Hu) skill _ _ e eq_refl Hl)
    as [k [p [Hst Hk]]].
  apply readEntry_ok in Hr. destruct Hr as [Hr _].
  exists skill, k, p, e. rewrite Hr. simpl. auto.
Qed.

(** The theorem at a reference asked for without its directory. *)
Lemma resolved_key_ends_with_requested_path_witness :
  exists skill k p e,
    Fixtures.registry "test_skill" = Some skill
    /\ StoredUnder skill k e
    /\ "/skills/test_skill/references/guide.md" = absolutePath e
    /\ "text/markdown" = mimeType e
    /\ toLowerCase k = p ++ toLowerCase (normalizeResourcePath "Guide.md").
Proof.
  apply (resolved_key_ends_with_requested_path Fixtures.registry Fixtures.disk
           (mkArgs "test_skill" "reference" "Guide.md")
           (mkResolved "/skills/test_skill/references/guide.md"
                       "# /skills/test_skill/references/guide.md"
                       "text/markdown")).
  - intros skill [= <-]. reflexivity.
  - reflexivity.
  - reflexivity.
  - discriminate.
  - reflexivity.
Defined.

End Suffix.

(** ** Listing a map and asking for what was listed *)

Module Listing.
Import Js Resolver Shapes Normalization ResolverCases Legacy TypedHits
       Separators.

Lemma map_get_unique {V} (k : string) (m : list (string * V)) (v : V) :
  NoDup (map fst m) -> In (k, v) m -> map_get k m = Some v.
Proof.
  induction m as [|[k' v'] r IH]; simpl; [tauto|].
  intros Hnd [[= -> ->]|H].
  - now rewrite String.eqb_refl.
  - inversion Hnd as [|? ? Hnotin Hnd']; subst.
    destruct (String.eqb_spec k' k) as [->|_]; [|auto].
    exfalso. apply Hnotin. apply (in_map fst) in H. exact H.
Qed.

Lemma listed_In m r :
  In r (Rendering.resourceMapToArray m)
  <-> In (Rendering.relativePath r,
          mkEntry (Rendering.absolutePath r) (Rendering.mimeType r)) m.
Proof.
  unfold Rendering.resourceMapToArray. rewrite in_map_iff. split.
  - intros [[k [a t]] [<- Hin]]. exact Hin.
  - intros Hin. eexists. split; [|exact Hin]. now destruct r.
Qed.

(** X13.  [resourceMapToArray] lists the keys of the map in insertion order,
    one element per entry; keys being unique, an element is listed exactly
    when looking its [relativePath] up in the map gives its [absolutePath]
    and [mimeType]. *)
Theorem resourceMapToArray_lists_the_map :
  forall m : SkillResourceMap,
    map Rendering.relativePath (Rendering.resourceMapToArray m) = map fst m
    /\ (NoDup (map fst m) ->
        forall r,
          In r (Rendering.resourceMapToArray m)
          <-> map_get (Rendering.relativePath r) m
              = Some (mkEntry (Rendering.absolutePath r)
                              (Rendering.mimeType r))).
Proof.
  intros m. split.
  - unfold Rendering.resourceMapToArray. rewrite map_map.
    apply map_ext. intros [k [a t]]. reflexivity.
  - intros Hnd r. rewrite listed_In. split.
    + now apply map_get_unique.
    + apply map_get_In.
Qed.

(** The theorem at the references map of the test skill. *)
Lemma resourceMapToArray_lists_the_map_witness :
  In (Rendering.mkResource "references/guide.md"
        "/skills/test_skill/references/guide.md" "text/markdown")
     (Rendering.resourceMapToArray (references Fixtures.test_skill)).
Proof.
  apply (proj2 (resourceMapToArray_lists_the_map
                  (references Fixtures.test_skill))).
  - repeat constructor. simpl. tauto.
  - reflexivity.
Defined.

(** X14.  What is listed can be asked for: for a legacy map with unique
    keys, an element of its listing whose [relativePath] is a safe path in
    normal form is read by a call that gives the type of that map and the
    listed [relativePath]. *)
Theorem listed_resource_resolves :
  forall (controller_get : string -> option Skill)
         (readSkillFile : string -> string + string)
         (skill : Skill) (name type dir : string) (m : SkillResourceMap)
         (r : Rendering.SkillResource),
    controller_get name = Some skill ->
    LegacyType skill type dir m ->
    NoDup (map fst m) ->
    In r (Rendering.resourceMapToArray m) ->
    isUnsafeResourcePath (Rendering.relativePath r) = false ->
    normalizeResourcePath (Rendering.relativePath r)
    = Rendering.relativePath r ->
    resolver controller_get readSkillFile
             (mkArgs name type (Rendering.relativePath r))
    = readEntry readSkillFile
        (mkEntry (Rendering.absolutePath r) (Rendering.mimeType r)).
Proof.
  intros get read skill nm ty dir m r Hget HL Hnd Hin Hsafe Hnorm.
  pose proof (unsafe_empty _ Hsafe) as Hne.
  apply resolver_hit with (skill := skill).
  - exact Hget.
  - now rewrite lookupPathOf_relative.
  - rewrite rawTypeOf_typed by exact (legacy_type_named _ _ _ _ HL).
    apply lookupEntry_first_hit.
    apply (legacy_lookup_hits skill ty dir m); [exact HL | |].
    + now apply unsafe_normal.
    + left. cbn [relative_path]. rewrite Hnorm.
      apply map_get_unique; [exact Hnd | now apply listed_In].
Qed.

(** The theorem at the listed reference of the test skill. *)
Lemma listed_resource_resolves_witness :
  resolver Fixtures.registry Fixtures.disk
           (mkArgs "test_skill" "reference" "references/guide.md")
  = readEntry Fixtures.disk
      (mkEntry "/skills/test_skill/references/guide.md" "text/markdown").
Proof.
  apply (listed_resource_resolves Fixtures.registry Fixtures.disk
           Fixtures.test_skill "test_skill" "reference" "references"
           (references Fixtures.test_skill)
           (Rendering.mkResource "references/guide.md"
              "/skills/test_skill/references/guide.md" "text/markdown")).
  - reflexivity.
  - apply legacy_references. simpl. auto.
  - repeat constructor. simpl. tauto.
  - simpl. auto.
  - reflexivity.
  - reflexivity.
Defined.

End Listing.

(** ** No false not-found *)

Module Completeness.
Import Js Resolver Shapes Normalization Folding ResolverFacts ResolverCases
       Lookup Legacy TypedHits Separators.

Lemma legacy_complete skill type dir m rel k e :
  LegacyType skill type dir m ->
  NormalForm (normalizeResourcePath rel) ->
  In (k, e) m ->
  toLowerCase k = toLowerCase (normalizeResourcePath rel) ->
  exists e', resolveLegacyResource skill type rel = Some e'.
Proof.
  intros HL [Hidem Hne] Hin Hk.
  rewrite (legacy_type_resolve _ _ _ _ rel HL).
  apply findInMap_complete. cbn [entriesOf].
  exists (normalizeResourcePath rel), k, e.
  rewrite Hidem. repeat split; auto.
  unfold legacyCandidates. apply truthy_true_iff in Hne. rewrite Hne.
  cbv zeta. cbn [negb]. destruct (startsWith _ _); now left.
Qed.

Lemma unified_complete skill rel m k e :
  resources skill = Some m ->
  NormalForm (normalizeResourcePath rel) ->
  In (k, e) m ->
  toLowerCase k = toLowerCase (normalizeResourcePath rel) ->
  exists e', resolveUnifiedResource skill "resource" rel = Some e'.
Proof.
  intros Hres [Hidem Hne] Hin Hk. unfold resolveUnifiedResource.
  rewrite Hres. destruct m as [|kv m']; [contradiction|].
  change (exists e',
             findInMap (Some (kv :: m'))
               (normalizeResourcePath rel
                :: app (if negb (startsWith "workflows/"
                                   (toLowerCase (normalizeResourcePath rel)))
                        then ["Workflows/" ++ normalizeResourcePath rel]
                        else [])
                       (if negb (startsWith "tools/"
                                   (toLowerCase (normalizeResourcePath rel)))
                        then ["Tools/" ++ normalizeResourcePath rel]
                        else []))
             = Some e').
  apply findInMap_complete. cbn [entriesOf].
  exists (normalizeResourcePath rel), k, e.
  rewrite Hidem. repeat split; auto. now left.
Qed.

Lemma orElse_any {A} (a b : option A) :
  (exists y, a = Some y) \/ (exists y, b = Some y) ->
  exists x, a <|> b = Some x.
Proof.
  intros [[y ->]|[y ->]]; [simpl; eauto|]. destruct a; simpl; eauto.
Qed.

Lemma retryByPrefix_complete skill rel inferred e :
  In inferred ["reference"; "script"; "asset"] ->
  resolveLegacyResource skill inferred (normalizeResourcePath rel) = Some e ->
  exists e', retryByPrefix skill rel = Some e'.
Proof.
  intros Hin He. unfold retryByPrefix.
  apply orElse_any. right.
  destruct Hin as [<-|[<-|[<-|[]]]].
  - apply orElse_any. left. eauto.
  - apply orElse_any. right. apply orElse_any. left. eauto.
  - apply orElse_any. right. apply orElse_any. right. eauto.
Qed.

Lemma lookupEntry_resource_complete skill rel k e :
  NormalForm (normalizeResourcePath rel) ->
  rel <> "" ->
  StoredUnder skill k e ->
  toLowerCase k = toLowerCase (normalizeResourcePath rel) ->
  exists e', lookupEntry skill "resource" rel = Some e'.
Proof.
  intros Hnf Hne Hst Hk. unfold lookupEntry.
  rewrite (resolveLegacy_generic skill "resource" rel)
    by (unfold GenericType; simpl; auto).
  cbn [orElse].
  destruct (resolveUnifiedResource skill "resource" rel) as [e2|] eqn:H2;
    [eauto|].
  assert (Ht : truthy rel = true) by now apply truthy_true_iff.
  rewrite Ht.
  change (includes (toLowerCase "resource")
                   ["resource"; "resources"; "doc"; "docs"] && true)
    with true.
  cbv iota.
  assert (Hidem : normalizeResourcePath (normalizeResourcePath rel)
                  = normalizeResourcePath rel) by apply normalize_idem.
  assert (Hnf' : NormalForm (normalizeResourcePath
                               (normalizeResourcePath rel)))
    by now rewrite Hidem.
  assert (Hretry : exists e', retryByPrefix skill rel = Some e').
  { destruct Hst as [Hin|[Hin|[Hin|Hin]]].
    - destruct (legacy_complete skill "script" "scripts" (scripts skill)
                  (normalizeResourcePath rel) k e) as [e' He'];
        auto; [apply legacy_scripts; simpl; auto | now rewrite Hidem |].
      apply (retryByPrefix_complete skill rel "script" e'); simpl; auto.
    - destruct (legacy_complete skill "reference" "references"
                  (references skill) (normalizeResourcePath rel) k e)
        as [e' He'];
        auto; [apply legacy_references; simpl; auto | now rewrite Hidem |].
      apply (retryByPrefix_complete skill rel "reference" e'); simpl; auto.
    - destruct (legacy_complete skill "asset" "assets" (assets skill)
                  (normalizeResourcePath rel) k e) as [e' He'];
        auto; [apply legacy_assets; simpl; auto | now rewrite Hidem |].
      apply (retryByPrefix_complete skill rel "asset" e'); simpl; auto.
    - destruct (resources skill) as [m|] eqn:Hres; [|contradiction].
      destruct (unified_complete skill rel m k e Hres Hnf Hin Hk)
        as [e' He']. congruence. }
  destruct Hretry as [e' He']. rewrite He'. eauto.
Qed.

(** X15.  No false not-found for a generic request: with a generic type (or
    none) and a safe relative path, if any of the four maps of the skill has
    a key equal, with case folded, to the normal form of the path, the call
    finds an indexed entry and reads it. *)
Theorem generic_request_finds_indexed_path :
  forall (controller_get : string -> option Skill)
         (readSkillFile : string -> string + string)
         (skill : Skill) (name type rel k : string) (e : ResourceEntry),
    controller_get name = Some skill ->
    GenericType (rawTypeOf (mkArgs name type rel)) ->
    isUnsafeResourcePath rel = false ->
    StoredUnder skill k e ->
    toLowerCase k = toLowerCase (normalizeResourcePath rel) ->
    exists e',
      Indexed skill e'
      /\ resolver controller_get readSkillFile (mkArgs name type rel)
         = readEntry readSkillFile e'.
Proof.
  intros get read skill nm ty rel k e Hget Hg Hsafe Hst Hk.
  pose proof (unsafe_empty _ Hsafe) as Hne.
  destruct (lookupEntry_resource_complete skill rel k e
              (unsafe_normal _ Hsafe) Hne Hst Hk) as [e' He'].
  exists e'. split; [eauto using lookupEntry_Indexed|].
  apply resolver_hit with (skill := skill).
  - exact Hget.
  - now rewrite lookupPathOf_relative.
  - cbn [relative_path].
    now rewrite (lookupEntry_generic_type skill _ rel Hg Hne).
Qed.

(** The theorem at a script of the test skill, asked for in capitals with
    no type. *)
Lemma generic_request_finds_indexed_path_witness :
  exists e',
    Indexed Fixtures.test_skill e'
    /\ resolver Fixtures.registry Fixtures.disk
                (mkArgs "test_skill" "" "SCRIPTS/BUILD.SH")
       = readEntry Fixtures.disk e'.
Proof.
  apply (generic_request_finds_indexed_path Fixtures.registry Fixtures.disk
           Fixtures.test_skill "test_skill" "" "SCRIPTS/BUILD.SH"
           "scripts/build.sh"
           (mkEntry "/skills/test_skill/scripts/build.sh" "application/x-sh")).
  - reflexivity.
  - unfold GenericType. simpl. auto.
  - reflexivity.
  - left. simpl. auto.
  - reflexivity.
Defined.

(** X16.  No false not-found for a typed request: with a type that names a
    legacy map and a safe relative path, if that map has a key equal, with
    case folded, to the normal form of the path, the call finds an entry of
    that map and reads it. *)
Theorem legacy_request_finds_indexed_path :
  forall (controller_get : string -> option Skill)
         (readSkillFile : string -> string + string)
         (skill : Skill) (name type dir rel k : string)
         (m : SkillResourceMap) (e : ResourceEntry),
    controller_get name = Some skill ->
    LegacyType skill type dir m ->
    isUnsafeResourcePath rel = false ->
    In (k, e) m ->
    toLowerCase k = toLowerCase (normalizeResourcePath rel) ->
    exists k' e',
      In (k', e') m
      /\ resolver controller_get readSkillFile (mkArgs name type rel)
         = readEntry readSkillFile e'.
Proof.
  intros get read skill nm ty dir rel k m e Hget HL Hsafe Hin Hk.
  pose proof (unsafe_empty _ Hsafe) as Hne.
  destruct (legacy_complete skill ty dir m rel k e HL
              (unsafe_normal _ Hsafe) Hin Hk) as [e' He'].
  pose proof He' as Hfound.
  rewrite (legacy_type_resolve _ _ _ _ rel HL) in Hfound.
  apply findInMap_In in Hfound. destruct Hfound as [k' Hk'].
  exists k', e'. split; [exact Hk'|].
  apply resolver_hit with (skill := skill).
  - exact Hget.
  - now rewrite lookupPathOf_relative.
  - rewrite rawTypeOf_typed by exact (legacy_type_named _ _ _ _ HL).
    now apply lookupEntry_first_hit.
Qed.

(** The theorem at the logo of the test skill, asked for in capitals. *)
Lemma legacy_request_finds_indexed_path_witness :
  exists k' e',
    In (k', e') (assets Fixtures.test_skill)
    /\ resolver Fixtures.registry Fixtures.disk
                (mkArgs "test_skill" "Asset" "ASSETS/LOGO.SVG")
       = readEntry Fixtures.disk e'.
Proof.
  apply (legacy_request_finds_indexed_path Fixtures.registry Fixtures.disk
           Fixtures.test_skill "test_skill" "Asset" "assets"
           "ASSETS/LOGO.SVG" "assets/logo.svg"
           (assets Fixtures.test_skill)
           (mkEntry "/skills/test_skill/assets/logo.svg" "image/svg+xml")).
  - reflexivity.
  - apply legacy_assets. simpl. auto.
  - reflexivity.
  - simpl. auto.
  - reflexivity.
Defined.

End Completeness.

(** ** The resource types the assertion accepts *)

Module AcceptedTypes.
Import Js Resolver Shapes ResourceTypes.

(** X17.  [assertIsValidResourceType] returns exactly for [script], [asset]
    and [reference] as written, and throws [Invalid resource type: ...]
    naming the type otherwise, plural and capitalised forms included; every
    type it accepts names a legacy map for the resolver, whose directory is
    the type with an [s]. *)
Theorem accepted_types_name_legacy_maps :
  forall (type : string),
    (assertIsValidResourceType type = inl tt
     <-> In type ["script"; "asset"; "reference"])
    /\ (assertIsValidResourceType type <> inl tt ->
        assertIsValidResourceType type
        = inr (Error ("Invalid resource type: " ++ type)))
    /\ (assertIsValidResourceType type = inl tt ->
        forall skill, exists m, LegacyType skill type (type ++ "s") m).
Proof.
  intros ty. unfold assertIsValidResourceType, ResourceTypes.ResourceTypes.
  destruct (includes ty ["script"; "asset"; "reference"]) eqn:Hi;
    cbn [negb].
  - apply includes_In in Hi. split; [tauto|]. split; [congruence|].
    intros _ skill. destruct Hi as [<-|[<-|[<-|[]]]].
    + exists (scripts skill). apply legacy_scripts. simpl. auto.
    + exists (assets skill). apply legacy_assets. simpl. auto.
    + exists (references skill). apply legacy_references. simpl. auto.
  - split; [|split; [reflexivity | discriminate]].
    split; [discriminate|]. intros H. apply includes_In in H. congruence.
Qed.

(** The theorem at the plural form, which the resolver takes and the
    assertion does not. *)
Lemma accepted_types_name_legacy_maps_witness :
  assertIsValidResourceType "scripts"
  = inr (Error ("Invalid resource type: " ++ "scripts")).
Proof.
  apply (proj1 (proj2 (accepted_types_name_legacy_maps "scripts"))).
  discriminate.
Defined.

End AcceptedTypes.

(** ** Unified-map conventions: typed directories and type-only requests *)

Module Conventions.
Import Js Resolver Shapes Normalization Folding ResolverFacts ResolverCases
       Probing Lookup Legacy TypedHits Separators Completeness AsciiText.

Lemma convention_folded type dir :
  ConventionType type dir ->
  toLowerCase (normalizeResourcePath type) = toLowerCase type.
Proof.
  rewrite toLowerCase_normalize.
  intros [H|H]; destruct H as [H|[H|[]]]; rewrite <- H; reflexivity.
Qed.

Lemma convention_not_legacy skill type dir rel :
  ConventionType type dir -> resolveLegacyResource skill type rel = None.
Proof.
  unfold resolveLegacyResource.
  intros [H|H]; destruct H as [H|[H|[]]]; rewrite <- H; reflexivity.
Qed.

Lemma convention_named type dir : ConventionType type dir -> type <> "".
Proof.
  intros [H|H] ->; simpl in H; destruct H as [H|[H|[]]]; discriminate.
Qed.

Lemma convention_candidates skill type dir rel kv m :
  ConventionType type dir ->
  NormalForm (normalizeResourcePath rel) ->
  resources skill = Some (kv :: m) ->
  resolveUnifiedResource skill type rel
  = findInMap (Some (kv :: m))
      [normalizeResourcePath rel; dir ++ "/" ++ normalizeResourcePath rel].
Proof.
  intros Hc [_ Hne] Hres. unfold resolveUnifiedResource.
  rewrite Hres, (convention_folded _ _ Hc).
  apply truthy_true_iff in Hne. rewrite Hne.
  destruct Hc as [H|H]; destruct H as [H|[H|[]]]; rewrite <- H; reflexivity.
Qed.

Lemma convention_dir type dir nr :
  ConventionType type dir -> NormalForm nr ->
  normalizeResourcePath (dir ++ "/" ++ nr) = dir ++ "/" ++ nr.
Proof.
  intros [H|H] Hn.
  - exact (normalize_app "Workflows/" nr Hn).
  - exact (normalize_app "Tools/" nr Hn).
Qed.

(** X18.  With type [workflow(s)] or [tool(s)], in any letter case, and a
    safe relative path, the call reads the unified-map entry stored under
    the normalized path, and when there is none the entry stored under the
    path inside [Workflows/] (or [Tools/]). *)
Theorem convention_request_reads_directory_entry :
  forall (controller_get : string -> option Skill)
         (readSkillFile : string -> string + string)
         (skill : Skill) (name type dir rel : string)
         (m : SkillResourceMap) (e : ResourceEntry),
    controller_get name = Some skill ->
    ConventionType type dir ->
    isUnsafeResourcePath rel = false ->
    resources skill = Some m ->
    map_get (normalizeResourcePath rel) m = Some e
    \/ (map_get (normalizeResourcePath rel) m = None
        /\ map_get (dir ++ "/" ++ normalizeResourcePath rel) m = Some e) ->
    resolver controller_get readSkillFile (mkArgs name type rel)
    = readEntry readSkillFile e.
Proof.
  intros get read skill nm ty dir rel m e Hget Hc Hsafe Hres Hcase.
  pose proof (unsafe_empty _ Hsafe) as Hne.
  pose proof (unsafe_normal _ Hsafe) as Hnf.
  assert (Hty : rawTypeOf (mkArgs nm ty rel) = ty).
  { unfold rawTypeOf. cbn [Resolver.type].
    pose proof (convention_named _ _ Hc) as Hn.
    apply truthy_true_iff in Hn. now rewrite Hn. }
  apply resolver_hit with (skill := skill).
  - exact Hget.
  - now rewrite lookupPathOf_relative.
  - rewrite Hty. cbn [relative_path]. unfold lookupEntry.
    rewrite (convention_not_legacy skill ty dir rel Hc). cbn [orElse].
    assert (Hu : resolveUnifiedResource skill ty rel = Some e).
    { destruct m as [|kv m'];
        [destruct Hcase as [H|[_ H]]; discriminate|].
      rewrite (convention_candidates skill ty dir rel kv m' Hc Hnf Hres).
      destruct Hnf as [Hidem Hnn].
      destruct Hcase as [Hexact|[Hmiss Hfull]].
      - apply (findInMap_exact (kv :: m') [] _ _ e).
        + intros c [].
        + now rewrite Hidem.
        + now rewrite Hidem.
      - apply (findInMap_exact (kv :: m') [normalizeResourcePath rel] _ [] e).
        + intros c [<-|[]]. right. now rewrite Hidem.
        + rewrite (convention_dir ty dir _ Hc) by (split; assumption).
          destruct Hc; discriminate.
        + now rewrite (convention_dir ty dir _ Hc) by (split; assumption). }
    now rewrite Hu.
Qed.

(** The theorem at the onboarding workflow of the [PAI] skill. *)
Lemma convention_request_reads_directory_entry_witness :
  resolver Fixtures.registry Fixtures.disk
           (mkArgs "PAI" "Workflow" "Onboarding.md")
  = readEntry Fixtures.disk Fixtures.onboarding.
Proof.
  apply (convention_request_reads_directory_entry
           Fixtures.registry Fixtures.disk Fixtures.PAI "PAI" "Workflow"
           "Workflows" "Onboarding.md"
           [("Workflows/Onboarding.md", Fixtures.onboarding);
            ("CoreStack.md",
             mkEntry "/skills/PAI/CoreStack.md" "text/markdown")]).
  - reflexivity.
  - apply convention_workflows. simpl. auto.
  - reflexivity.
  - reflexivity.
  - right. split; reflexivity.
Defined.

Lemma includes_false x l : ~ In x l -> includes x l = false.
Proof.
  intros H. destruct (includes x l) eqn:Hi; [|reflexivity].
  apply includes_In in Hi. contradiction.
Qed.

Lemma eqb_not_in x y l : ~ In x l -> In y l -> (x =? y) = false.
Proof. intros Hn Hy. apply String.eqb_neq. congruence. Qed.

Lemma resolveUnified_directory skill type rel kv m :
  ~ In (toLowerCase (normalizeResourcePath type)) unifiedKeywords ->
  NormalForm (normalizeResourcePath rel) ->
  resources skill = Some (kv :: m) ->
  resolveUnifiedResource skill type rel
  = findInMap (Some (kv :: m))
      [normalizeResourcePath type ++ "/" ++ normalizeResourcePath rel;
       normalizeResourcePath rel].
Proof.
  intros Hk [_ Hne] Hres. unfold resolveUnifiedResource.
  rewrite Hres. apply truthy_true_iff in Hne. rewrite Hne.
  unfold unifiedKeywords in Hk.
  rewrite !(eqb_not_in _ _ _ Hk) by (simpl; tauto).
  reflexivity.
Qed.

(** X19.  With an ASCII type that is no keyword of the resolver (a
    directory name such as [SYSTEM]) and a safe relative path, the call reads
    the unified-map entry stored under the normalized type, a slash and the
    normalized path. *)
Theorem directory_type_reads_entry_under_it :
  forall (controller_get : string -> option Skill)
         (readSkillFile : string -> string + string)
         (skill : Skill) (name type rel : string)
         (m : SkillResourceMap) (e : ResourceEntry),
    controller_get name = Some skill ->
    isAscii type = true ->
    ~ In (toLowerCase type) legacyKeywords ->
    ~ In (toLowerCase (normalizeResourcePath type)) unifiedKeywords ->
    isUnsafeResourcePath rel = false ->
    resources skill = Some m ->
    map_get (normalizeResourcePath type ++ "/" ++ normalizeResourcePath rel) m
    = Some e ->
    resolver controller_get readSkillFile (mkArgs name type rel)
    = readEntry readSkillFile e.
Proof.
  intros get read skill nm ty rel m e Hget _ Hleg Hkey Hsafe Hres Hhit.
  pose proof (unsafe_empty _ Hsafe) as Hne.
  pose proof (unsafe_normal _ Hsafe) as Hnf.
  assert (Hnt : normalizeResourcePath ty <> "").
  { intros H. apply Hkey. rewrite H. unfold unifiedKeywords. simpl. tauto. }
  assert (Hty : rawTypeOf (mkArgs nm ty rel) = ty).
  { unfold rawTypeOf. cbn [Resolver.type].
    assert (Hn : ty <> "") by (intros ->; now apply Hnt).
    apply truthy_true_iff in Hn. now rewrite Hn. }
  assert (Hnorm : normalizeResourcePath
                    (normalizeResourcePath ty ++ "/"
                     ++ normalizeResourcePath rel)
                  = normalizeResourcePath ty ++ "/"
                    ++ normalizeResourcePath rel).
  { rewrite <- append_associative, (normalize_app _ _ Hnf). f_equal.
    unfold toPosixPath. rewrite replaceAll_app.
    rewrite (replaceAll_without "\" "/" (normalizeResourcePath ty))
      by apply normalize_no_backslash.
    apply stripLeading_fixed.
    pose proof (normalize_no_leading_slash ty) as Hs.
    destruct (normalizeResourcePath ty) as [|c r]; [congruence | exact Hs]. }
  apply resolver_hit with (skill := skill).
  - exact Hget.
  - now rewrite lookupPathOf_relative.
  - rewrite Hty. cbn [relative_path]. unfold lookupEntry.
    rewrite (resolveLegacy_other skill ty rel Hleg). cbn [orElse].
    assert (Hu : resolveUnifiedResource skill ty rel = Some e).
    { destruct m as [|kv m']; [discriminate|].
      rewrite (resolveUnified_directory skill ty rel kv m' Hkey Hnf Hres).
      apply (findInMap_exact (kv :: m') [] _ _ e).
      - intros c [].
      - rewrite Hnorm. destruct (normalizeResourcePath ty);
          [congruence | discriminate].
      - now rewrite Hnorm. }
    now rewrite Hu.
Qed.

(** The theorem at a skill with a [SYSTEM] directory. *)
Lemma directory_type_reads_entry_under_it_witness :
  resolver MoreFixtures.systemRegistry Fixtures.disk
           (mkArgs "PAI" "SYSTEM" "PAISYSTEMARCHITECTURE.md")
  = readEntry Fixtures.disk MoreFixtures.architecture.
Proof.
  apply (directory_type_reads_entry_under_it
           MoreFixtures.systemRegistry Fixtures.disk MoreFixtures.systemSkill
           "PAI" "SYSTEM" "PAISYSTEMARCHITECTURE.md"
           [("SYSTEM/PAISYSTEMARCHITECTURE.md", MoreFixtures.architecture)]);
    try reflexivity.
  - unfold legacyKeywords. simpl. intuition discriminate.
  - unfold unifiedKeywords. simpl. intuition discriminate.
Defined.

End Conventions.

(** ** A request that gives only a type *)

Module TypeOnly.
Import Js Resolver Shapes Normalization Folding ResolverFacts ResolverCases
       Lookup Legacy TypedHits Separators Completeness.

Lemma lookupEntry_type_only skill type :
  lookupEntry skill type ""
  = match resolveLegacyResource skill type ""
          <|> resolveUnifiedResource skill type "" with
    | Some e => Some e
    | None =>
        resolveUnifiedResource skill "resource" type
        <|> resolveLegacyResource skill "reference" type
        <|> resolveLegacyResource skill "script" type
        <|> resolveLegacyResource skill "asset" type
    end.
Proof.
  unfold lookupEntry.
  destruct (resolveLegacyResource skill type "" <|> _); [reflexivity|].
  change (truthy "") with false. now rewrite andb_false_r.
Qed.

(** X20.  A call with an empty relative path takes the type as the path:
    when the type is a safe path and any of the four maps of the skill has a
    key equal to its normal form with case folded, the call finds an indexed
    entry and reads it. *)
Theorem type_only_request_finds_indexed_path :
  forall (controller_get : string -> option Skill)
         (readSkillFile : string -> string + string)
         (skill : Skill) (name type k : string) (e : ResourceEntry),
    controller_get name = Some skill ->
    isUnsafeResourcePath type = false ->
    StoredUnder skill k e ->
    toLowerCase k = toLowerCase (normalizeResourcePath type) ->
    exists e',
      Indexed skill e'
      /\ resolver controller_get readSkillFile (mkArgs name type "")
         = readEntry readSkillFile e'.
Proof.
  intros get read skill nm ty k e Hget Hsafe Hst Hk.
  pose proof (unsafe_empty _ Hsafe) as Hne.
  pose proof (unsafe_normal _ Hsafe) as Hnf.
  assert (Hty : rawTypeOf (mkArgs nm ty "") = ty).
  { unfold rawTypeOf. cbn [Resolver.type].
    apply truthy_true_iff in Hne. now rewrite Hne. }
  assert (Hpath : lookupPathOf (mkArgs nm ty "") = ty).
  { unfold lookupPathOf. cbn [relative_path]. exact Hty. }
  assert (Hfound : exists e', lookupEntry skill ty "" = Some e').
  { rewrite lookupEntry_type_only.
    destruct (resolveLegacyResource skill ty "" <|> _) as [x|]; [eauto|].
    apply orElse_any.
    destruct Hst as [Hin|[Hin|[Hin|Hin]]].
    - right. apply orElse_any. right. apply orElse_any. left.
      apply (legacy_complete skill "script" "scripts" (scripts skill) ty k e);
        auto. apply legacy_scripts. simpl. auto.
    - right. apply orElse_any. left.
      apply (legacy_complete skill "reference" "references"
               (references skill) ty k e); auto.
      apply legacy_references. simpl. auto.
    - right. apply orElse_any. right. apply orElse_any. right.
      apply (legacy_complete skill "asset" "assets" (assets skill) ty k e);
        auto. apply legacy_assets. simpl. auto.
    - left. destruct (resources skill) as [m|] eqn:Hres; [|contradiction].
      now apply (unified_complete skill ty m k e). }
  destruct Hfound as [e' He'].
  exists e'. split; [eauto using lookupEntry_Indexed|].
  apply resolver_hit with (skill := skill).
  - exact Hget.
  - now rewrite Hpath.
  - rewrite Hty. exact He'.
Qed.

(** The theorem at a reference named in the type alone. *)
Lemma type_only_request_finds_indexed_path_witness :
  exists e',
    Indexed Fixtures.test_skill e'
    /\ resolver Fixtures.registry Fixtures.disk
                (mkArgs "test_skill" "references/Guide.md" "")
       = readEntry Fixtures.disk e'.
Proof.
  apply (type_only_request_finds_indexed_path Fixtures.registry Fixtures.disk
           Fixtures.test_skill "test_skill" "references/Guide.md"
           "references/guide.md" Fixtures.guide).
  - reflexivity.
  - reflexivity.
  - right. left. simpl. auto.
  - reflexivity.
Defined.

End TypeOnly.
